(** * ChartManager (visualization.py): a shallow embedding and its properties

    The module draws a housing-price time series with an optional linear
    trend.  The embedding follows the Python source function by function:

    - [Calendar]: the proleptic Gregorian arithmetic behind
      [Timestamp.toordinal] and the month-end date ranges built by
      [pd.date_range(..., freq='ME')];
    - [Fit]: [np.polyfit(x, y, 1)] and [np.poly1d], over exact rationals;
    - [Frame]: the part of a pandas [DataFrame] the module touches;
    - [Chart]: the [ChartManager] class, as a state-and-exception monad over
      a store of data frames and the drawing surface.

    Floating-point numbers are idealised as rationals ([Qc]): rounding is
    not modelled. *)

From Stdlib Require Import ZArith QArith Qcanon Lia Ascii String List Sorted Permutation.
From stdpp Require Import base option list gmap strings numbers.

Open Scope Z_scope.

(** ** Exceptions and results *)

Inductive exn : Type :=
| KeyError (key : string)
| ValueError (msg : string)
| TypeError (msg : string)
| IndexError (msg : string).

Inductive result (A : Type) : Type :=
| Ok (a : A)
| Raise (e : exn).
Arguments Ok {A} a.
Arguments Raise {A} e.

Definition rbind {A B} (r : result A) (k : A -> result B) : result B :=
  match r with
  | Ok a => k a
  | Raise e => Raise e
  end.

Fixpoint rmapM {A B} (f : A -> result B) (l : list A) : result (list B) :=
  match l with
  | [] => Ok []
  | a :: l' => rbind (f a) (fun b => rbind (rmapM f l') (fun bs => Ok (b :: bs)))
  end.

Definition is_ok {A} (r : result A) : bool :=
  match r with Ok _ => true | Raise _ => false end.

(** ** Calendar arithmetic (datetime.date, month-end offsets) *)

Module Calendar.

Record date : Type := mkDate { year : Z; month : Z; day : Z }.

Definition date_eqb (a b : date) : bool :=
  (year a =? year b) && (month a =? month b) && (day a =? day b).

(** [_is_leap] of CPython's datetime. *)
Definition is_leap (y : Z) : bool :=
  (y mod 4 =? 0) && (negb (y mod 100 =? 0) || (y mod 400 =? 0)).

(** [_days_before_year]: days before January 1st of year [y]. *)
Definition days_before_year (y : Z) : Z :=
  let y1 := y - 1 in y1 * 365 + y1 / 4 - y1 / 100 + y1 / 400.

(** [_DAYS_IN_MONTH], with February corrected in leap years. *)
Definition days_in_month (y m : Z) : Z :=
  match m with
  | 2 => if is_leap y then 29 else 28
  | 4 | 6 | 9 | 11 => 30
  | _ => 31
  end.

(** [_DAYS_BEFORE_MONTH]. *)
Definition days_before_month_table (m : Z) : Z :=
  match m with
  | 1 => 0 | 2 => 31 | 3 => 59 | 4 => 90 | 5 => 120 | 6 => 151
  | 7 => 181 | 8 => 212 | 9 => 243 | 10 => 273 | 11 => 304 | _ => 334
  end.

Definition days_before_month (y m : Z) : Z :=
  days_before_month_table m + (if (2 <? m) && is_leap y then 1 else 0).

(** [date.toordinal()]: January 1st of year 1 is day 1. *)
Definition toordinal (d : date) : Z :=
  days_before_year (year d) + days_before_month (year d) (month d) + day d.

(** The dates a [datetime.date] object can hold. *)
Definition valid_date (d : date) : bool :=
  (1 <=? year d) && (year d <=? 9999) &&
  (1 <=? month d) && (month d <=? 12) &&
  (1 <=? day d) && (day d <=? days_in_month (year d) (month d)).

(** Chronological order, on the (year, month, day) triple. *)
Definition date_compare (a b : date) : comparison :=
  match year a ?= year b with
  | Eq => match month a ?= month b with
          | Eq => day a ?= day b
          | c => c
          end
  | c => c
  end.

Definition date_le (a b : date) : Prop := date_compare a b <> Gt.
Definition date_leb (a b : date) : bool :=
  match date_compare a b with Gt => false | _ => true end.

(** Months counted from year 0: the position of a date's month on the
    month-end grid. *)
Definition month_index (d : date) : Z := year d * 12 + (month d - 1).

(** The month-end date of the month at a given index. *)
Definition month_end_of_index (i : Z) : date :=
  let y := i / 12 in
  let m := i mod 12 + 1 in
  mkDate y m (days_in_month y m).

Definition is_month_end (d : date) : bool :=
  day d =? days_in_month (year d) (month d).

(** [MonthEnd.rollforward]: the first month end on or after the date. *)
Definition rollforward (d : date) : date := month_end_of_index (month_index d).

(** [MonthEnd.rollback]: the last month end on or before the date. *)
Definition rollback (d : date) : date :=
  if is_month_end d then d else month_end_of_index (month_index d - 1).

(** [pd.date_range(start=s, periods=n, freq='ME')]: [n] consecutive month
    ends, the first being the first month end on or after [s]. *)
Definition date_range_periods (s : date) (n : Z) : list date :=
  month_end_of_index <$> seqZ (month_index (rollforward s)) n.

(** [pd.date_range(start=s, end=e, freq='ME')]: every month end between
    [s] and [e], both included; empty when there is none. *)
Definition date_range_between (s e : date) : list date :=
  let i := month_index (rollforward s) in
  let j := month_index (rollback e) in
  month_end_of_index <$> seqZ i (j - i + 1).

(** [d + DateOffset(years=n)]: same month and day [n] years later, the day
    clamped to the length of the target month (February 29th). *)
Definition add_years (d : date) (n : Z) : date :=
  mkDate (year d + n) (month d)
         (Z.min (day d) (days_in_month (year d + n) (month d))).

(** The extra day of a leap year. *)
Definition leap_day (y : Z) : Z := if is_leap y then 1 else 0.

End Calendar.
Export Calendar.

(** ** Least-squares line (np.polyfit, np.poly1d) *)

Module Fit.

Definition of_Z (z : Z) : Qc := Q2Qc (inject_Z z).

Definition qsum (l : list Qc) : Qc := foldr Qcplus (Q2Qc 0) l.

(** [np.polyfit(x, y, 1)] returns [(slope, intercept)] of the least-squares
    line.  numpy solves the scaled Vandermonde system with [lstsq]; in exact
    arithmetic that is the normal-equation solution when the abscissae are
    not all equal, and the minimum-norm solution (both scaled coefficients
    equal) when they are, which numpy reports with a RankWarning, not an
    exception.  An empty [x], or [x] and [y] of different lengths, raise
    TypeError. *)
Definition polyfit (xs : list Z) (ys : list Qc) : result (Qc * Qc) :=
  match xs with
  | [] => Raise (TypeError "expected non-empty vector for x")
  | x0 :: _ =>
      if negb (length xs =? length ys)%nat
      then Raise (TypeError "expected x and y to have same length")
      else
        let n := of_Z (Z.of_nat (length xs)) in
        let qx := of_Z <$> xs in
        let sx := qsum qx in
        let sy := qsum ys in
        let sxx := qsum (zip_with Qcmult qx qx) in
        let sxy := qsum (zip_with Qcmult qx ys) in
        let det := (n * sxx - sx * sx)%Qc in
        if decide (det = Q2Qc 0)
        then Ok ((sy / (of_Z 2 * n * of_Z x0))%Qc, (sy / (of_Z 2 * n))%Qc)
        else
          let slope := ((n * sxy - sx * sy) / det)%Qc in
          Ok (slope, ((sy - slope * sx) / n)%Qc)
  end.

(** [np.poly1d([slope, intercept])(x)], by Horner's rule. *)
Definition poly1d (c : Qc * Qc) (x : Z) : Qc := (c.1 * of_Z x + c.2)%Qc.

End Fit.
Export Fit.

(** ** Data frames (the part of pandas the module uses) *)

Module Frame.

(** A cell holds a number (int, float or Decimal), a string, or a calendar
    date. *)
Inductive cell : Type :=
| Num (q : Qc)
| Str (s : string)
| Date (d : date).

#[global] Instance date_eq_dec : EqDecision date.
Proof. solve_decision. Defined.

#[global] Instance cell_eq_dec : EqDecision cell.
Proof. solve_decision. Defined.

(** A frame: the length of its index and its columns by name.  pandas keeps
    every column as long as the index, see [wf_frame]. *)
Record DataFrame : Type := mkFrame {
  nrows : nat;
  columns : gmap string (list cell)
}.

Definition wf_frame (df : DataFrame) : Prop :=
  forall c (l : list cell), columns df !! c = Some l -> length l = nrows df.

Definition wf_frameb (df : DataFrame) : bool :=
  bool_decide (map_Forall (fun _ (l : list cell) => length l = nrows df) (columns df)).

(** [df.empty]: some axis has length 0. *)
Definition empty (df : DataFrame) : bool :=
  (nrows df =? 0)%nat || bool_decide (columns df = ∅).

(** ['c' in df.columns] *)
Definition has_column (df : DataFrame) (c : string) : bool :=
  bool_decide (is_Some (columns df !! c)).

(** [df['c']] *)
Definition getitem (df : DataFrame) (c : string) : result (list cell) :=
  match columns df !! c with
  | Some l => Ok l
  | None => Raise (KeyError c)
  end.

(** [df['c'] = l] *)
Definition setitem (df : DataFrame) (c : string) (l : list cell) : DataFrame :=
  mkFrame (nrows df) (<[c := l]> (columns df)).

(** [s.iloc[0]] and [s.iloc[-1]] *)
Definition iloc_first {A} (l : list A) : result A :=
  match l with
  | x :: _ => Ok x
  | [] => Raise (IndexError "single positional indexer is out-of-bounds")
  end.

Definition iloc_last {A} (l : list A) : result A :=
  match list.last l with
  | Some x => Ok x
  | None => Raise (IndexError "single positional indexer is out-of-bounds")
  end.

(** *** float(s) on decimal literals

    Python's [float] accepts more spellings (exponents, inf, nan, blanks);
    the model reads an optional sign, digits and an optional fractional
    part, and rejects everything else. *)

Definition digit_of (c : ascii) : option Z :=
  let n := Z.of_nat (nat_of_ascii c) in
  if (48 <=? n) && (n <=? 57) then Some (n - 48) else None.

(** Reads [s] as [int-digits . frac-digits]; [acc] is the value of the
    digits read so far, [scale] the power of ten of the fractional digits
    read so far ([None] before the point), [seen] whether a digit was read. *)
Fixpoint parse_digits (s : string) (acc : Z) (scale : option Z) (seen : bool)
  : option Q :=
  match s with
  | EmptyString =>
      if seen
      then Some (match scale with
                 | Some k => Qmake acc (Z.to_pos k)
                 | None => inject_Z acc
                 end)
      else None
  | String c s' =>
      if Ascii.eqb c "."%char
      then match scale with
           | None => parse_digits s' acc (Some 1) seen
           | Some _ => None
           end
      else match digit_of c with
           | Some d => parse_digits s' (10 * acc + d) ((fun k => 10 * k) <$> scale) true
           | None => None
           end
  end.

Definition parse_float (s : string) : option Qc :=
  match s with
  | String "-" s' => (fun q => Q2Qc (Qopp q)) <$> parse_digits s' 0 None false
  | String "+" s' => Q2Qc <$> parse_digits s' 0 None false
  | _ => Q2Qc <$> parse_digits s 0 None false
  end.

(** One cell of [s.astype(float)]. *)
Definition to_float (c : cell) : result Qc :=
  match c with
  | Num q => Ok q
  | Str s => match parse_float s with
             | Some q => Ok q
             | None => Raise (ValueError "could not convert string to float")
             end
  | Date _ => Raise (TypeError "float() argument must be a string or a real number")
  end.

(** [s.astype(float)] *)
Definition astype_float (l : list cell) : result (list cell) :=
  rmapM (fun c => rbind (to_float c) (fun q => Ok (Num q))) l.

(** [s.values] handed to numpy arithmetic: the cells must be numbers. *)
Definition float_values (l : list cell) : result (list Qc) :=
  rmapM (fun c => match c with
                  | Num q => Ok q
                  | _ => Raise (TypeError "unsupported operand type(s) for +")
                  end) l.

(** [pd.to_datetime] on one cell.  The model covers cells that already are
    calendar dates (the input contract); other cells are rejected. *)
Definition to_datetime (c : cell) : result date :=
  match c with
  | Date d => Ok d
  | Str _ => Raise (ValueError "Unknown datetime string format")
  | Num _ => Raise (TypeError "not convertible to datetime")
  end.

(** [format(c, '.0f')]: fails on strings; a date formats through strftime. *)
Definition format_0f (c : cell) : result unit :=
  match c with
  | Str _ => Raise (ValueError "Unknown format code 'f' for object of type 'str'")
  | _ => Ok tt
  end.

(** [s.mean()], [s.min()], [s.max()] on a float column. *)
Definition mean (l : list Qc) : Qc := (qsum l / of_Z (Z.of_nat (length l)))%Qc.

Definition qmin (a b : Qc) : Qc := if Qclt_le_dec b a then b else a.
Definition qmax (a b : Qc) : Qc := if Qclt_le_dec a b then b else a.

Definition minimum (l : list Qc) : Qc :=
  match l with
  | [] => Q2Qc 0
  | x :: l' => foldl qmin x l'
  end.

Definition maximum (l : list Qc) : Qc :=
  match l with
  | [] => Q2Qc 0
  | x :: l' => foldl qmax x l'
  end.

(** *** groupby *)

(** Order of group keys: numbers before dates before strings, each kind in
    its natural order. *)
Definition cell_rank (c : cell) : Z :=
  match c with Num _ => 0 | Date _ => 1 | Str _ => 2 end.

Definition cell_compare (a b : cell) : comparison :=
  match a, b with
  | Num x, Num y => (x ?= y)%Qc
  | Str x, Str y => String.compare x y
  | Date x, Date y => date_compare x y
  | _, _ => cell_rank a ?= cell_rank b
  end.

Fixpoint key_compare (a b : list cell) : comparison :=
  match a, b with
  | [], [] => Eq
  | [], _ :: _ => Lt
  | _ :: _, [] => Gt
  | x :: a', y :: b' =>
      match cell_compare x y with
      | Eq => key_compare a' b'
      | c => c
      end
  end.

Definition key_lt (a b : list cell) : Prop := key_compare a b = Lt.

Definition key_le (a b : list cell) : Prop := key_compare a b <> Gt.

(** Insertion into an increasing list of keys. *)
Fixpoint insert_key (k : list cell) (ks : list (list cell)) : list (list cell) :=
  match ks with
  | [] => [k]
  | k' :: ks' =>
      match key_compare k k' with
      | Gt => k' :: insert_key k ks'
      | _ => k :: ks
      end
  end.

Definition sort_keys (ks : list (list cell)) : list (list cell) :=
  foldr insert_key [] ks.

(** The keys of the groups: the distinct row keys, in increasing order. *)
Definition group_keys (keys : list (list cell)) : list (list cell) :=
  sort_keys (remove_dups keys).

(** The key of every row: the values of the grouping columns, row by row. *)
Definition row_keys (n : nat) (cs : list (list cell)) : list (list cell) :=
  (fun i => omap (fun c : list cell => c !! i) cs) <$> seq 0 n.

(** Boolean indexing [s[mask]]. *)
Fixpoint select {A} (mask : list bool) (l : list A) : list A :=
  match mask, l with
  | b :: mask', x :: l' => if b then x :: select mask' l' else select mask' l'
  | _, _ => []
  end.

Definition key_mask (keys : list (list cell)) (k : list cell) : list bool :=
  (fun k' => bool_decide (k' = k)) <$> keys.

Definition sub_frame (df : DataFrame) (mask : list bool) : DataFrame :=
  mkFrame (length (select mask (seq 0 (nrows df)))) (select mask <$> columns df).

(** [df.groupby(by)], iterated: the distinct keys in increasing order, each
    with the rows that carry it, in their original order. *)
Definition groupby (df : DataFrame) (by_cols : list string)
  : result (list (list cell * DataFrame)) :=
  rbind (rmapM (getitem df) by_cols) (fun cs =>
    let keys := row_keys (nrows df) cs in
    Ok ((fun k => (k, sub_frame df (key_mask keys k))) <$> group_keys keys)).

End Frame.
Export Frame.

(** ** The drawing surface and the ChartManager class *)

Module Chart.

#[global] Instance result_ret : MRet result := fun A a => Ok a.
#[global] Instance result_bind : MBind result := fun A B k r => rbind r k.

Definition nl : string := String (ascii_of_nat 10) EmptyString.

(** *** calculate_forecast *)

(** [pd.date_range(start=s, periods=n, freq='ME')] with its argument check. *)
Definition date_range_checked (s : date) (n : Z) : result (list date) :=
  if n <? 0
  then Raise (ValueError "Number of periods must be non-negative")
  else Ok (date_range_periods s n).

(** [a[-1]] on an array. *)
Definition array_last {A} (l : list A) : result A :=
  match list.last l with
  | Some x => Ok x
  | None => Raise (IndexError "index -1 is out of bounds for axis 0 with size 0")
  end.

(** The coefficients of the line fitted to the series: date ordinals
    against prices. *)
Definition fitted_line (dates prices : list cell) : result (Qc * Qc) :=
  ds ← rmapM to_datetime dates;
  let date_ordinals := toordinal <$> ds in
  y ← float_values prices;
  polyfit date_ordinals y.

Definition calculate_forecast (dates prices : list cell) (years_to_forecast : Z)
  : result (list date * list Qc) :=
  coefficients ← fitted_line dates prices;
  let polynomial := poly1d coefficients in
  last_cell ← iloc_last dates;
  last_date ← to_datetime last_cell;
  future_dates ← date_range_checked last_date (years_to_forecast * 12 + 1);
  first_cell ← iloc_first dates;
  first_date ← to_datetime first_cell;
  end_date ← array_last future_dates;
  let all_dates := date_range_between first_date end_date in
  let all_X := toordinal <$> all_dates in
  let forecast_values := polynomial <$> all_X in
  Ok (all_dates, forecast_values).

(** *** The surface *)

(** Legend labels, kept structured: "Actual Data", "Forecast (6 years)",
    "Actual - {label}" and "Forecast - {label} (6 years)", where the label
    of a group is its key, each value stringified and joined by ", ". *)
Inductive label : Type :=
| ActualData
| ForecastData
| ActualOf (key : list cell)
| ForecastOf (key : list cell).

Record line : Type := mkLine {
  line_x : list cell;
  line_y : list cell;
  line_fmt : string;
  line_label : label;
  line_color : option string;
  line_alpha : option Qc
}.

Record text : Type := mkText {
  text_body : string;
  text_color : option string;
  text_wrap : bool
}.

(** Pieces of an f-string: literal text, [str(c)] of a cell, and a number
    under the format [,.0f]. *)
Inductive piece : Type :=
| Lit (s : string)
| Val (c : cell)
| Fmt0 (q : Qc).

Record Axes : Type := mkAxes {
  lines : list line;
  texts : list text;
  title : list piece;
  xlabel : string;
  ylabel : string;
  legend : option string;
  date_axis : option (string * Z);
  currency_axis : bool;
  grid : bool
}.

(** [ax.clear()] *)
Definition blank_axes : Axes :=
  mkAxes [] [] [] "" "" None None false false.

(** The figure layout last requested. *)
Inductive layout : Type :=
| DefaultLayout
| BottomMargin (q : Qc)
| TightLayout.

Record ChartManager : Type := mkChart {
  ax : Axes;
  canvas : nat;
  fig : layout;
  accent : string;
  show_forecast : bool;
  current_data : option nat
}.

(** [ChartManager.__init__]: no [current_data] attribute yet. *)
Definition init (a : Axes) (c : nat) (f : layout) (acc : string) : ChartManager :=
  mkChart a c f acc false None.

(** The store of data frames shared with the caller, and the instance. *)
Record world : Type := mkWorld {
  heap : gmap nat DataFrame;
  self : ChartManager
}.

(** Computations that read and write the world and may raise; what was
    written before an exception stays written. *)
Definition M (A : Type) : Type := world -> result A * world.

#[global] Instance M_ret : MRet M := fun A a w => (Ok a, w).
#[global] Instance M_bind : MBind M := fun A B k m w =>
  match m w with
  | (Ok a, w') => k a w'
  | (Raise e, w') => (Raise e, w')
  end.

Definition lift {A} (r : result A) : M A := fun w => (r, w).
Definition get_self : M ChartManager := fun w => (Ok (self w), w).
Definition modify_self (f : ChartManager -> ChartManager) : M unit :=
  fun w => (Ok tt, mkWorld (heap w) (f (self w))).

(** Dereferencing an object; a dangling reference cannot arise in Python and
    is reported as a ReferenceError-like TypeError. *)
Definition load (r : nat) : M DataFrame := fun w =>
  match heap w !! r with
  | Some df => (Ok df, w)
  | None => (Raise (TypeError "dangling reference"), w)
  end.

Definition store (r : nat) (df : DataFrame) : M unit :=
  fun w => (Ok tt, mkWorld (<[r := df]> (heap w)) (self w)).

Definition set_ax (a : Axes) (s : ChartManager) : ChartManager :=
  mkChart a (canvas s) (fig s) (accent s) (show_forecast s) (current_data s).
Definition set_fig (f : layout) (s : ChartManager) : ChartManager :=
  mkChart (ax s) (canvas s) f (accent s) (show_forecast s) (current_data s).
Definition set_show_forecast (b : bool) (s : ChartManager) : ChartManager :=
  mkChart (ax s) (canvas s) (fig s) (accent s) b (current_data s).
Definition set_current_data (r : nat) (s : ChartManager) : ChartManager :=
  mkChart (ax s) (canvas s) (fig s) (accent s) (show_forecast s) (Some r).

Definition modify_ax (f : Axes -> Axes) : M unit :=
  modify_self (fun s => set_ax (f (ax s)) s).

Definition ax_clear : M unit := modify_ax (fun _ => blank_axes).

Definition ax_plot (l : line) : M unit :=
  modify_ax (fun a => mkAxes (lines a ++ [l]) (texts a) (title a) (xlabel a)
                             (ylabel a) (legend a) (date_axis a)
                             (currency_axis a) (grid a)).

Definition ax_text (t : text) : M unit :=
  modify_ax (fun a => mkAxes (lines a) (texts a ++ [t]) (title a) (xlabel a)
                             (ylabel a) (legend a) (date_axis a)
                             (currency_axis a) (grid a)).

Definition ax_set_title (t : list piece) : M unit :=
  modify_ax (fun a => mkAxes (lines a) (texts a) t (xlabel a) (ylabel a)
                             (legend a) (date_axis a) (currency_axis a) (grid a)).

Definition ax_set_labels (x y : string) : M unit :=
  modify_ax (fun a => mkAxes (lines a) (texts a) (title a) x y (legend a)
                             (date_axis a) (currency_axis a) (grid a)).

(** Date locator and formatter, tick rotation, currency formatter, grid. *)
Definition ax_cosmetics : M unit :=
  modify_ax (fun a => mkAxes (lines a) (texts a) (title a) (xlabel a) (ylabel a)
                             (legend a) (Some ("%Y-%m-%d", 45)) true true).

Definition ax_legend (loc : string) : M unit :=
  modify_ax (fun a => mkAxes (lines a) (texts a) (title a) (xlabel a) (ylabel a)
                             (Some loc) (date_axis a) (currency_axis a) (grid a)).

Definition fig_layout (f : layout) : M unit := modify_self (set_fig f).

Definition canvas_draw : M unit :=
  modify_self (fun s => mkChart (ax s) (S (canvas s)) (fig s) (accent s)
                                (show_forecast s) (current_data s)).

Fixpoint foldM {A B} (f : B -> A -> M B) (b : B) (l : list A) : M B :=
  match l with
  | [] => mret b
  | a :: l' => b' ← f b a; foldM f b' l'
  end.

(** *** The methods *)

Definition placeholder (body : string) : text := mkText body None false.

Definition setup_initial_plot : M unit :=
  ax_set_title [Lit "Housing Prices Over Time"];;
  ax_set_labels "Date" "Price ($)";;
  ax_text (placeholder "Select filters and click Update Viz");;
  canvas_draw.

Definition no_data_message : string :=
  "No data found for the given criteria" ++ nl ++ "Try different search parameters".

(** The probe for the grouping columns: each level only under the previous
    one. *)
Definition location_cols_of (df : DataFrame) : list string :=
  if has_column df "stateabbr"
  then "stateabbr" ::
       (if has_column df "city"
        then "city" :: (if has_column df "zipcode" then ["zipcode"] else [])
        else [])
  else [].

Definition first_cell (df : DataFrame) (c : string) : result cell :=
  col ← getitem df c; iloc_first col.

(** [avg_desc] is formatted in every branch (and used in none). *)
Definition avg_desc (df : DataFrame) : result unit :=
  z ← first_cell df "included_zipcodes"; format_0f z.

Definition main_title (df : DataFrame) : result (list piece) :=
  if has_column df "city"
  then c ← first_cell df "city";
       s ← first_cell df "stateabbr";
       avg_desc df;;
       Ok [Lit "Housing Prices in "; Val c; Lit ", "; Val s]
  else if has_column df "stateabbr"
  then s ← first_cell df "stateabbr";
       avg_desc df;;
       Ok [Lit "Housing Prices in "; Val s]
  else avg_desc df;;
       Ok [Lit "Housing Prices in United States"].

Definition alpha07 : Qc := Q2Qc (7 # 10).

(** One iteration of the loop over the groups; [fv] is the local variable
    [forecast_values] ([None] while unbound). *)
Definition plot_group (fv : option (list Qc)) (kg : list cell * DataFrame)
  : M (option (list Qc)) :=
  gd ← lift (getitem kg.2 "date");
  gp ← lift (getitem kg.2 "price");
  ax_plot (mkLine gd gp "-" (ActualOf kg.1) None None);;
  s ← get_self;
  if show_forecast s
  then fc ← lift (calculate_forecast gd gp 6);
       ax_plot (mkLine (Date <$> fc.1) (Num <$> fc.2) "--" (ForecastOf kg.1)
                       None (Some alpha07));;
       mret (Some fc.2)
  else mret fv.

(** The single series drawn when there is no grouping column. *)
Definition plot_whole (df : DataFrame) : M (option (list Qc)) :=
  d ← lift (getitem df "date");
  p ← lift (getitem df "price");
  s ← get_self;
  ax_plot (mkLine d p "-" ActualData (Some (accent s)) None);;
  s ← get_self;
  if show_forecast s
  then d ← lift (getitem df "date");
       p ← lift (getitem df "price");
       fc ← lift (calculate_forecast d p 6);
       ax_plot (mkLine (Date <$> fc.1) (Num <$> fc.2) "--" ForecastData
                       (Some "red") (Some alpha07));;
       mret (Some fc.2)
  else mret None.

Definition stats_text (df : DataFrame) (show : bool) (fv : option (list Qc))
  : result (list piece) :=
  price ← getitem df "price";
  v ← float_values price;
  let stats := [Lit (nl ++ "Avg: $"); Fmt0 (mean v);
                Lit " | Min: $"; Fmt0 (minimum v);
                Lit " | Max: $"; Fmt0 (maximum v)] in
  if show
  then match fv with
       | Some forecast_values =>
           x ← array_last forecast_values;
           Ok (stats ++ [Lit (nl ++ "Forecasted Value (6 years): $"); Fmt0 x])
       | None => Raise (TypeError "local variable 'forecast_values' referenced before assignment")
       end
  else Ok stats.

(** Lines 97-126: the series, one per group or one for the whole frame;
    returns [has_multiple_lines] and the last [forecast_values]. *)
Definition plot_series (data : DataFrame) : M (bool * option (list Qc)) :=
  let location_cols := location_cols_of data in
  if bool_decide (location_cols = [])
  then fv ← plot_whole data; mret (false, fv)
  else locations ← lift (groupby data location_cols);
       let has_multiple_lines := (1 <? length locations)%nat in
       fv ← foldM plot_group None locations;
       mret (has_multiple_lines, fv).

(** Lines 76-158: what is drawn for the (coerced) frame. *)
Definition draw (data : DataFrame) : M unit :=
  mt ← lift (main_title data);
  let title0 := Lit nl :: mt in
  drawn ← plot_series data;
  ax_set_title title0;;
  ax_set_labels "Date" "Average Home Value ($)";;
  ax_cosmetics;;
  s ← get_self;
  st ← lift (stats_text data (show_forecast s) drawn.2);
  ax_set_title (title (ax s) ++ st);;
  s ← get_self;
  if drawn.1 || show_forecast s
  then ax_legend "lower right";; fig_layout (BottomMargin (Q2Qc (2 # 10)))
  else fig_layout TightLayout.

(** Line 75: [data['price'] = data['price'].astype(float)], in place on the
    frame held at [r]. *)
Definition coerce_price (r : nat) : M unit :=
  data ← load r;
  price ← lift (getitem data "price");
  price' ← lift (astype_float price);
  store r (setitem data "price" price').

(** The branch of [update_plot] taken for a non-empty frame held at [r]. *)
Definition render (r : nat) : M unit :=
  modify_self (set_current_data r);;
  ax_clear;;
  coerce_price r;;
  data ← load r;
  draw data.

Definition no_data : M unit :=
  ax_clear;;
  ax_text (placeholder no_data_message).

Definition update_plot (data : option nat) : M unit :=
  match data with
  | Some r =>
      df ← load r;
      if negb (empty df) then render r else no_data
  | None => no_data
  end;;
  canvas_draw.

Definition toggle_trend_line : M unit :=
  modify_self (fun s => set_show_forecast (negb (show_forecast s)) s);;
  s ← get_self;
  match current_data s with
  | Some r => update_plot (Some r)
  | None => mret tt
  end.

Definition show_error (message : string) : M unit :=
  ax_clear;;
  ax_text (mkText message (Some "red") true);;
  canvas_draw.

Definition clear_plot : M unit :=
  ax_clear;;
  setup_initial_plot.

(** The public operations, and runs of them on one instance. *)
Inductive op : Type :=
| ToggleTrendLine
| UpdatePlot (data : option nat)
| SetupInitialPlot
| ShowError (message : string)
| ClearPlot.

Definition run_op (o : op) : M unit :=
  match o with
  | ToggleTrendLine => toggle_trend_line
  | UpdatePlot data => update_plot data
  | SetupInitialPlot => setup_initial_plot
  | ShowError message => show_error message
  | ClearPlot => clear_plot
  end.

(** The caller carries on after an exception: every operation runs, and the
    outcomes are collected. *)
Fixpoint run_ops (os : list op) (w : world) : list (result unit) * world :=
  match os with
  | [] => ([], w)
  | o :: os' =>
      let '(r, w') := run_op o w in
      let '(rs, w'') := run_ops os' w' in
      (r :: rs, w'')
  end.

(** *** Vocabulary of the properties *)

(** [w'] differs from [w] on the drawing surface only: same store, same
    flag, same [current_data], same accent. *)
Definition same_data (w w' : world) : Prop :=
  heap w' = heap w /\
  show_forecast (self w') = show_forecast (self w) /\
  current_data (self w') = current_data (self w) /\
  accent (self w') = accent (self w).

(** [w'] has the flag of [w]. *)
Definition same_flag (w w' : world) : Prop :=
  show_forecast (self w') = show_forecast (self w).

(** Whatever its outcome, [m] leaves the world related by [R] to the one it
    started from. *)
Definition preserves (R : relation world) {A} (m : M A) : Prop :=
  forall w, R w (m w).2.

Definition surface_only {A} (m : M A) : Prop := preserves same_data m.

(** What [update_plot] leaves behind on an absent or empty dataset. *)
Definition no_data_axes : Axes :=
  mkAxes [] [placeholder no_data_message] [] "" "" None None false false.

(** The dataset handed to [update_plot] is absent or empty. *)
Definition absent_or_empty (w : world) (data : option nat) : Prop :=
  match data with
  | None => True
  | Some r => exists df, heap w !! r = Some df /\ empty df = true
  end.

(** The price column of a frame can be coerced to float. *)
Definition price_coercible (df : DataFrame) : bool :=
  is_ok (price ← getitem df "price"; astype_float price).

(** Lines by kind. *)
Definition is_actual (l : line) : bool :=
  match line_label l with
  | ActualData | ActualOf _ => true
  | _ => false
  end.

Definition is_forecast (l : line) : bool :=
  match line_label l with
  | ForecastData | ForecastOf _ => true
  | _ => false
  end.

Definition count_lines (p : line -> bool) (ls : list line) : nat :=
  length (List.filter p ls).

(** The input contract of [update_plot]: every column as long as the index,
    at least one row, a price column that coerces, a date column, an
    included_zipcodes column whose first cell formats as a number, and no
    city column without a stateabbr column. *)
Definition input_contract (df : DataFrame) : Prop :=
  wf_frame df /\
  empty df = false /\
  price_coercible df = true /\
  has_column df "date" = true /\
  (exists l, columns df !! "included_zipcodes" = Some l /\
             forall s, list.head l <> Some (Str s)) /\
  (has_column df "city" = true -> has_column df "stateabbr" = true).

(** The precondition of [calculate_forecast]: the date column holds calendar
    dates, in ascending order. *)
Definition dates_ascending (df : DataFrame) : Prop :=
  exists ds, columns df !! "date" = Some (Date <$> ds) /\
             Forall (fun d => valid_date d = true) ds /\
             Sorted date_le ds.

(** The row keys of a frame under its grouping columns. *)
Definition location_keys (df : DataFrame) : list (list cell) :=
  match rmapM (getitem df) (location_cols_of df) with
  | Ok cs => row_keys (nrows df) cs
  | Raise _ => []
  end.

(** The world with more lines on the axes. *)
Definition add_lines (ls : list line) (w : world) : world :=
  mkWorld (heap w)
    (set_ax (mkAxes (lines (ax (self w)) ++ ls) (texts (ax (self w)))
               (title (ax (self w))) (xlabel (ax (self w))) (ylabel (ax (self w)))
               (legend (ax (self w))) (date_axis (ax (self w)))
               (currency_axis (ax (self w))) (grid (ax (self w))))
            (self w)).

(** The lines one group contributes, and its forecast values. *)
Definition group_forecast (g : DataFrame) : result (list date * list Qc) :=
  d ← getitem g "date"; p ← getitem g "price"; calculate_forecast d p 6.

Definition group_lines (show : bool) (kg : list cell * DataFrame) : list line :=
  match getitem kg.2 "date", getitem kg.2 "price" with
  | Ok d, Ok p =>
      mkLine d p "-" (ActualOf kg.1) None None ::
      (if show
       then match calculate_forecast d p 6 with
            | Ok fc => [mkLine (Date <$> fc.1) (Num <$> fc.2) "--"
                          (ForecastOf kg.1) None (Some alpha07)]
            | Raise _ => []
            end
       else [])
  | _, _ => []
  end.

Definition whole_lines (show : bool) (acc : string) (df : DataFrame) : list line :=
  match getitem df "date", getitem df "price" with
  | Ok d, Ok p =>
      mkLine d p "-" ActualData (Some acc) None ::
      (if show
       then match calculate_forecast d p 6 with
            | Ok fc => [mkLine (Date <$> fc.1) (Num <$> fc.2) "--"
                          ForecastData (Some "red") (Some alpha07)]
            | Raise _ => []
            end
       else [])
  | _, _ => []
  end.

(** A group the loop body runs through without raising. *)
Definition group_ok (show : bool) (kg : list cell * DataFrame) : Prop :=
  is_ok (getitem kg.2 "date") = true /\
  is_ok (getitem kg.2 "price") = true /\
  (show = true -> is_ok (group_forecast kg.2) = true).

Definition group_values (g : DataFrame) : option (list Qc) :=
  match group_forecast g with
  | Ok fc => Some fc.2
  | Raise _ => None
  end.

(** [forecast_values] after the loop: assigned by the last group iterated. *)
Definition last_forecast (show : bool) (fv : option (list Qc))
    (gs : list (list cell * DataFrame)) : option (list Qc) :=
  if show
  then match list.last gs with
       | Some kg => group_values kg.2
       | None => fv
       end
  else fv.

(** The groups [update_plot] iterates over. *)
Definition groups_of (df : DataFrame) : list (list cell * DataFrame) :=
  match groupby df (location_cols_of df) with
  | Ok gs => gs
  | Raise _ => []
  end.

(** All the lines of a frame, and the forecast the stats line quotes. *)
Definition series_lines (show : bool) (acc : string) (df : DataFrame) : list line :=
  if bool_decide (location_cols_of df = [])
  then whole_lines show acc df
  else flat_map (group_lines show) (groups_of df).

Definition series_forecast (show : bool) (df : DataFrame) : option (list Qc) :=
  if bool_decide (location_cols_of df = [])
  then (if show then group_values df else None)
  else last_forecast show None (groups_of df).

Definition stats_pieces (qs : list Qc) : list piece :=
  [Lit (nl ++ "Avg: $"); Fmt0 (mean qs);
   Lit " | Min: $"; Fmt0 (minimum qs);
   Lit " | Max: $"; Fmt0 (maximum qs)].

Definition forecast_pieces (x : Qc) : list piece :=
  [Lit (nl ++ "Forecasted Value (6 years): $"); Fmt0 x].

(** [has_multiple_lines] *)
Definition has_multiple (df : DataFrame) : bool :=
  negb (bool_decide (location_cols_of df = [])) &&
  (1 <? length (groups_of df))%nat.

(** The series of a frame are drawn without raising. *)
Definition series_ok (show : bool) (df : DataFrame) : Prop :=
  if bool_decide (location_cols_of df = [])
  then group_ok show ([], df)
  else is_ok (groupby df (location_cols_of df)) = true /\
       Forall (group_ok show) (groups_of df).

(** The store holds a non-empty frame at [r]. *)
Definition nonempty_at (w : world) (r : nat) : Prop :=
  exists df, heap w !! r = Some df /\ empty df = false.

(** The exceptions line 75 can raise: the price column is missing, or one
    of its cells does not convert. *)
Definition coercion_error (e : exn) : bool :=
  match e with
  | KeyError k => bool_decide (k = "price")
  | ValueError m => bool_decide (m = "could not convert string to float")
  | TypeError m =>
      bool_decide (m = "float() argument must be a string or a real number")
  | IndexError _ => false
  end.

Definition raised_in_coercion (res : result unit) : bool :=
  match res with
  | Ok _ => false
  | Raise e => coercion_error e
  end.

(** The invariant of the specification on [current_data]. *)
Definition current_data_nonempty (w : world) : Prop :=
  forall r, current_data (self w) = Some r -> nonempty_at w r.

Definition current_data_coercible (w : world) : Prop :=
  forall r, current_data (self w) = Some r ->
    exists df, heap w !! r = Some df /\ empty df = false /\
               price_coercible df = true.

(** [update_plot] is called on a non-empty dataset somewhere in the run. *)
Definition stores (w : world) (o : op) : Prop :=
  exists r, o = UpdatePlot (Some r) /\ nonempty_at w r.

(** The four facts the run-level properties are built from, for one
    operation: which frames are non-empty does not change; [current_data]
    becomes set exactly by an [update_plot] on a non-empty dataset; once
    set it holds a non-empty dataset; and it holds a price-coercible one
    unless the operation raised during price coercion. *)
Definition step_facts (w : world) (o : op) (res : result unit) (w' : world) : Prop :=
  (forall r0, nonempty_at w' r0 <-> nonempty_at w r0) /\
  (is_Some (current_data (self w')) <->
     is_Some (current_data (self w)) \/ stores w o) /\
  (current_data_nonempty w -> current_data_nonempty w') /\
  (current_data_coercible w -> raised_in_coercion res = false ->
     current_data_coercible w').

(** *** Sample data for the examples *)

Definition frame_abc : DataFrame :=
  mkFrame 1 (<["price" := [Str "abc"]]> (<["date" := [Date (mkDate 2020 1 31)]]> ∅)).

Definition fresh (h : gmap nat DataFrame) : world :=
  mkWorld h (init blank_axes 0 DefaultLayout "blue").

(** A priced series with a city column and no stateabbr column. *)
Definition frame_city : DataFrame :=
  mkFrame 1 (<["price" := [Str "12"]]>
             (<["date" := [Date (mkDate 2020 1 31)]]>
              (<["city" := [Str "Tempe"]]>
               (<["included_zipcodes" := [Num (of_Z 3)]]> ∅)))).

(** A priced series without an included_zipcodes column. *)
Definition frame_abc12 : DataFrame :=
  mkFrame 1 (<["price" := [Str "12"]]> (<["date" := [Date (mkDate 2020 1 31)]]> ∅)).

(** A two-row series without location columns. *)
Definition frame_plain : DataFrame :=
  mkFrame 2 (<["price" := [Str "100"; Str "200"]]>
             (<["date" := [Date (mkDate 2020 1 31); Date (mkDate 2020 2 29)]]>
              (<["included_zipcodes" := [Num (of_Z 3); Num (of_Z 3)]]> ∅))).

(** Three rows over two states; TX comes first in the rows, AZ in the keys. *)
Definition frame_states : DataFrame :=
  mkFrame 3 (<["stateabbr" := [Str "TX"; Str "AZ"; Str "TX"]]>
             (<["price" := [Str "100"; Str "50"; Str "200"]]>
              (<["date" := [Date (mkDate 2020 1 31); Date (mkDate 2020 1 31);
                            Date (mkDate 2020 2 29)]]>
               (<["included_zipcodes" := [Num (of_Z 3); Num (of_Z 3); Num (of_Z 3)]]>
                ∅)))).

(** A fresh instance after one [toggle_trend_line]: the forecast is on. *)
Definition forecasting (h : gmap nat DataFrame) : world :=
  mkWorld h (set_show_forecast true (init blank_axes 0 DefaultLayout "blue")).

(** *** Vocabulary of the further properties *)

(** What [setup_initial_plot] writes on blank axes. *)
Definition initial_axes : Axes :=
  mkAxes [] [placeholder "Select filters and click Update Viz"]
    [Lit "Housing Prices Over Time"] "Date" "Price ($)" None None false false.

(** What [show_error] leaves on the axes. *)
Definition error_axes (message : string) : Axes :=
  mkAxes [] [mkText message (Some "red") true] [] "" "" None None false false.

(** The title of a frame drawn to the end: main title, stats of the prices
    [qs], and the last forecast value when the forecast is on. *)
Definition drawn_title (show : bool) (df : DataFrame) (mt : list piece)
    (qs : list Qc) : list piece :=
  (Lit nl :: mt) ++ stats_pieces qs ++
  (if show
   then match series_forecast show df ≫= list.last with
        | Some x => forecast_pieces x
        | None => []
        end
   else []).

(** The axes of a frame drawn to the end: its series, its title and the
    legend, over the labels and cosmetics of lines 129-141. *)
Definition drawn_axes (show : bool) (acc : string) (df : DataFrame)
    (mt : list piece) (qs : list Qc) : Axes :=
  mkAxes (series_lines show acc df) [] (drawn_title show df mt qs)
    "Date" "Average Home Value ($)"
    (if has_multiple df || show then Some "lower right" else None)
    (Some ("%Y-%m-%d", 45)) true true.

Definition drawn_layout (show : bool) (df : DataFrame) : layout :=
  if has_multiple df || show then BottomMargin (Q2Qc (2 # 10)) else TightLayout.

(** The instance with [n] more flushes of the canvas. *)
Definition flushed (n : nat) (w : world) : world :=
  mkWorld (heap w)
    (mkChart (ax (self w)) (n + canvas (self w)) (fig (self w))
       (accent (self w)) (show_forecast (self w)) (current_data (self w))).

(** The instance over another surface. *)
Definition with_axes (a : Axes) (w : world) : world :=
  mkWorld (heap w) (set_ax a (self w)).

Definition is_toggle (o : op) : bool :=
  match o with ToggleTrendLine => true | _ => false end.

(** The datasets an operation is handed are absent or empty. *)
Definition brings_no_data (w : world) (o : op) : Prop :=
  match o with
  | UpdatePlot data => absent_or_empty w data
  | _ => True
  end.

(** The methods that write the surface only, and what each makes of the
    axes [a] it finds: [setup_initial_plot] keeps the lines and adds its
    text, [clear_plot] and [show_error] start from cleared axes. *)
Definition surface_op (o : op) : bool :=
  match o with
  | SetupInitialPlot | ShowError _ | ClearPlot => true
  | _ => false
  end.

Definition titled_axes (a : Axes) : Axes :=
  mkAxes (lines a) (texts a ++ [placeholder "Select filters and click Update Viz"])
    [Lit "Housing Prices Over Time"] "Date" "Price ($)"
    (legend a) (date_axis a) (currency_axis a) (grid a).

Definition surface_after (o : op) (a : Axes) : Axes :=
  match o with
  | SetupInitialPlot => titled_axes a
  | ClearPlot => initial_axes
  | ShowError message => error_axes message
  | _ => a
  end.

(** [w'] has the flush count and the figure layout of [w]. *)
Definition same_canvas_fig (w w' : world) : Prop :=
  canvas (self w') = canvas (self w) /\ fig (self w') = fig (self w).

(** The number of [toggle_trend_line] calls in a run. *)
Definition toggles (os : list op) : nat := length (List.filter is_toggle os).

(** The dataset handed over, if any, is in the store. *)
Definition in_store (w : world) (data : option nat) : Prop :=
  match data with
  | Some r => is_Some (heap w !! r)
  | None => True
  end.

(** [df] is [df0], or [df0] with its price column coerced to floats. *)
Definition coerced_from (df0 df : DataFrame) : Prop :=
  df = df0 \/
  exists price', (price ← getitem df0 "price"; astype_float price) = Ok price' /\
                 df = setitem df0 "price" price'.

(** Line 75 or the title (lines 85-93) raises [e] on the frame: what fails
    whatever the forecast flag. *)
Definition fails_early (df : DataFrame) (e : exn) : Prop :=
  (price ← getitem df "price"; astype_float price) = Raise e \/
  (price_coercible df = true /\ main_title df = Raise e).

(** Every dataset of the store of [w] is one of the store of [w0], as it
    was or with its price column coerced; no dataset is added or dropped. *)
Definition store_coerced (w0 w : world) : Prop :=
  forall r,
    match heap w0 !! r with
    | None => heap w !! r = None
    | Some df0 => exists df, heap w !! r = Some df /\ coerced_from df0 df
    end.

(** Sums over integer abscissae: the determinant of the normal equations
    of [polyfit] is [normal_det], and [spread x xs] the sum of the squared
    distances of [xs] to [x]. *)
Definition sum_z (xs : list Z) : Z := foldr Z.add 0 xs.

Definition sum_sq (xs : list Z) : Z := foldr (fun x acc => x * x + acc) 0 xs.

Definition spread (x : Z) (xs : list Z) : Z :=
  foldr (fun y acc => (y - x) * (y - x) + acc) 0 xs.

Definition normal_det (xs : list Z) : Z :=
  Z.of_nat (length xs) * sum_sq xs - sum_z xs * sum_z xs.

(** The labels a group puts in the legend, and the number of points of a
    list of lines. *)
Definition group_labels (show : bool) (k : list cell) : list label :=
  ActualOf k :: (if show then [ForecastOf k] else []).

Definition points (ls : list line) : nat :=
  sum_list_with (fun l => length (line_y l)) ls.

(** The first cell of a column, if the frame has the column, and the main
    title by the location cells of the first row. *)
Definition first_of (df : DataFrame) (c : string) : option cell :=
  columns df !! c ≫= list.head.

Definition first_row_title (df : DataFrame) : list piece :=
  match first_of df "city", first_of df "stateabbr" with
  | Some c, Some s => [Lit "Housing Prices in "; Val c; Lit ", "; Val s]
  | None, Some s => [Lit "Housing Prices in "; Val s]
  | _, _ => [Lit "Housing Prices in United States"]
  end.

(** The columns the series are read from, and frames that agree on them. *)
Definition series_columns : list string :=
  ["date"; "price"; "stateabbr"; "city"; "zipcode"].

Definition agree_on_series (df1 df2 : DataFrame) : Prop :=
  nrows df1 = nrows df2 /\
  forall c, c ∈ series_columns -> columns df1 !! c = columns df2 !! c.

(** *** Number formatting (lines 137-138 and 144-149)

    [format(x, ',.0f')] prints the integer nearest to the exact value of
    [x], ties going to the even one, its digits in groups of three. *)

Definition round_half_even (q : Qc) : Z :=
  let n := Qnum q in
  let d := Zpos (Qden q) in
  let fl := n / d in
  let r2 := 2 * (n mod d) in
  if r2 <? d then fl
  else if d <? r2 then fl + 1
  else if Z.even fl then fl else fl + 1.

Definition digit_char (n : Z) : ascii := ascii_of_nat (Z.to_nat (48 + n)).

(** The digits of a number below 1000, as they are and padded to three. *)
Definition three_digits (n : Z) : string :=
  String (digit_char (n / 100))
    (String (digit_char (n / 10 mod 10)) (String (digit_char (n mod 10)) "")).

Definition short_digits (n : Z) : string :=
  if n <? 10 then String (digit_char n) ""
  else if n <? 100
  then String (digit_char (n / 10)) (String (digit_char (n mod 10)) "")
  else three_digits n.

(** The digits of [n >= 0] in groups of three; [fuel] bounds the number of
    separators. *)
Fixpoint grouped (fuel : nat) (n : Z) : string :=
  match fuel with
  | O => short_digits n
  | S fuel' =>
      if n <? 1000 then short_digits n
      else grouped fuel' (n / 1000) +:+ "," +:+ three_digits (n mod 1000)
  end.

Definition format_comma_0f (q : Qc) : string :=
  let z := round_half_even q in
  (if Qnum q <? 0 then "-" else "") +:+
  grouped (Z.to_nat (Z.log2 (Z.abs z))) (Z.abs z).

(** The tick formatter nested in [update_plot]; the tick position [p] is
    not used. *)
Definition currency_formatter (x : Qc) (p : Z) : string :=
  "$" +:+ format_comma_0f x.

(** Reading an amount back: the digits, commas skipped, under an optional
    sign and the dollar sign. *)
Fixpoint read_grouped (s : string) (acc : Z) : option Z :=
  match s with
  | EmptyString => Some acc
  | String c s' =>
      if Ascii.eqb c ","%char then read_grouped s' acc
      else match digit_of c with
           | Some d => read_grouped s' (10 * acc + d)
           | None => None
           end
  end.

Definition read_amount (s : string) : option Z :=
  match s with
  | String c s' =>
      if Ascii.eqb c "-"%char then Z.opp <$> read_grouped s' 0
      else read_grouped s 0
  | EmptyString => None
  end.

Definition read_currency (s : string) : option Z :=
  match s with
  | String c s' => if Ascii.eqb c "$"%char then read_amount s' else None
  | EmptyString => None
  end.

End Chart.
Export Chart.

(** * Properties *)

(** ** Calendar facts *)

Section CalendarFacts.

Lemma month_index_month_end i : month_index (month_end_of_index i) = i.
Proof. unfold month_index, month_end_of_index; simpl. Z.div_mod_to_equations; lia. Qed.

Lemma month_index_rollforward d : month_index (rollforward d) = month_index d.
Proof. apply month_index_month_end. Qed.

Lemma rollback_month_end i : rollback (month_end_of_index i) = month_end_of_index i.
Proof.
  unfold rollback, is_month_end, month_end_of_index; simpl.
  by rewrite Z.eqb_refl.
Qed.

Lemma valid_date_bounds d :
  valid_date d = true ->
  1 <= year d <= 9999 /\ 1 <= month d <= 12 /\
  1 <= day d <= days_in_month (year d) (month d).
Proof. unfold valid_date. rewrite !andb_true_iff, !Z.leb_le. tauto. Qed.

Lemma month_end_of_month_index d :
  1 <= month d <= 12 ->
  forall k, month_end_of_index (month_index d + 12 * k) =
    mkDate (year d + k) (month d) (days_in_month (year d + k) (month d)).
Proof.
  intros Hm k. unfold month_end_of_index, month_index.
  assert (Hq : (year d * 12 + (month d - 1) + 12 * k) / 12 = year d + k)
    by (Z.div_mod_to_equations; lia).
  assert (Hr : (year d * 12 + (month d - 1) + 12 * k) mod 12 + 1 = month d)
    by (Z.div_mod_to_equations; lia).
  by rewrite Hq, Hr.
Qed.

Lemma rollforward_valid d :
  1 <= month d <= 12 ->
  rollforward d = mkDate (year d) (month d) (days_in_month (year d) (month d)).
Proof.
  intros Hm. unfold rollforward.
  pose proof (month_end_of_month_index d Hm 0) as H.
  by rewrite Z.mul_0_r, !Z.add_0_r in H.
Qed.

Lemma date_compare_spec a b :
  match date_compare a b with
  | Lt => year a < year b \/ (year a = year b /\ (month a < month b \/
            (month a = month b /\ day a < day b)))
  | Eq => a = b
  | Gt => year b < year a \/ (year a = year b /\ (month b < month a \/
            (month a = month b /\ day b < day a)))
  end.
Proof.
  destruct a as [ya ma da], b as [yb mb db]; unfold date_compare; simpl.
  destruct (Z.compare_spec ya yb); try lia.
  destruct (Z.compare_spec ma mb); try lia.
  destruct (Z.compare_spec da db); try lia.
  by subst.
Qed.

Lemma date_le_month_index a b :
  1 <= month a <= 12 -> 1 <= month b <= 12 ->
  date_le a b -> month_index a <= month_index b.
Proof.
  intros Ha Hb Hle. unfold date_le in Hle. unfold month_index.
  pose proof (date_compare_spec a b) as Hs.
  destruct (date_compare a b); [subst; lia | lia | done].
Qed.

Lemma date_le_refl a : date_le a a.
Proof.
  unfold date_le. pose proof (date_compare_spec a a) as Hs.
  destruct (date_compare a a); [done | done | lia].
Qed.

Lemma date_le_trans a b c : date_le a b -> date_le b c -> date_le a c.
Proof.
  unfold date_le. intros Hab Hbc.
  pose proof (date_compare_spec a b) as H1.
  pose proof (date_compare_spec b c) as H2.
  pose proof (date_compare_spec a c) as H3.
  destruct (date_compare a b); [subst; done | | done].
  destruct (date_compare b c); [subst | | done].
  - destruct (date_compare a c); [done | done | lia].
  - destruct (date_compare a c); [done | done | lia].
Qed.

Lemma add_years_le_month_end d k :
  date_le (add_years d k)
          (mkDate (year d + k) (month d) (days_in_month (year d + k) (month d))).
Proof.
  unfold date_le, add_years.
  match goal with |- date_compare ?a ?b <> _ =>
    pose proof (date_compare_spec a b) as Hs; destruct (date_compare a b)
  end; [done | done | simpl in Hs; lia].
Qed.

End CalendarFacts.

Section Ordinals.

Lemma days_before_year_succ y :
  days_before_year (y + 1) = days_before_year y + 365 + leap_day y.
Proof.
  unfold days_before_year, leap_day, is_leap.
  replace (y + 1 - 1) with y by lia.
  destruct (Z.eqb_spec (y mod 4) 0), (Z.eqb_spec (y mod 100) 0),
    (Z.eqb_spec (y mod 400) 0); simpl; Z.div_mod_to_equations; lia.
Qed.

Lemma days_before_year_mono y y' :
  y <= y' -> days_before_year y <= days_before_year y'.
Proof. unfold days_before_year. intros. Z.div_mod_to_equations; lia. Qed.

Ltac months m H :=
  assert (m = 1 \/ m = 2 \/ m = 3 \/ m = 4 \/ m = 5 \/ m = 6 \/ m = 7 \/
          m = 8 \/ m = 9 \/ m = 10 \/ m = 11 \/ m = 12) as H by lia;
  repeat destruct H as [H | H]; subst m.

Lemma day_of_year_bound y m d :
  1 <= m <= 12 -> 1 <= d <= days_in_month y m ->
  1 <= days_before_month y m + d <= 365 + leap_day y.
Proof.
  intros Hm Hd. unfold days_before_month, leap_day in *.
  months m Hc; simpl in *; destruct (is_leap y); simpl in *; lia.
Qed.

Lemma days_before_month_next y m :
  1 <= m <= 11 ->
  days_before_month y (m + 1) = days_before_month y m + days_in_month y m.
Proof.
  intros Hm. unfold days_before_month.
  assert (Hc : m = 1 \/ m = 2 \/ m = 3 \/ m = 4 \/ m = 5 \/ m = 6 \/ m = 7 \/
          m = 8 \/ m = 9 \/ m = 10 \/ m = 11) by lia.
  repeat destruct Hc as [Hc | Hc]; subst m; simpl; destruct (is_leap y); simpl; lia.
Qed.

Lemma days_before_month_mono y m m' :
  1 <= m -> m <= m' -> m' <= 12 ->
  days_before_month y m <= days_before_month y m'.
Proof.
  intros H1 H2 H3. unfold days_before_month.
  months m Hc; months m' Hc'; simpl; destruct (is_leap y); simpl; lia.
Qed.

Lemma toordinal_lt a b :
  valid_date a = true -> valid_date b = true ->
  date_compare a b = Lt -> toordinal a < toordinal b.
Proof.
  intros Ha Hb Hlt.
  apply valid_date_bounds in Ha as (Hya & Hma & Hda).
  apply valid_date_bounds in Hb as (Hyb & Hmb & Hdb).
  pose proof (date_compare_spec a b) as Hs. rewrite Hlt in Hs.
  unfold toordinal.
  pose proof (day_of_year_bound _ _ _ Hma Hda) as Ba.
  pose proof (day_of_year_bound _ _ _ Hmb Hdb) as Bb.
  destruct Hs as [Hy | [Hy [Hm | [Hm Hd]]]].
  - pose proof (days_before_year_succ (year a)) as Hsucc.
    pose proof (days_before_year_mono (year a + 1) (year b)) as Hmono. lia.
  - rewrite Hy.
    pose proof (days_before_month_next (year b) (month a)) as Hn.
    pose proof (days_before_month_mono (year b) (month a + 1) (month b)) as Hmono.
    rewrite Hy in Hda. lia.
  - rewrite Hy, Hm. lia.
Qed.

Lemma date_compare_gt_lt a b : date_compare a b = Gt -> date_compare b a = Lt.
Proof.
  intros Hgt. pose proof (date_compare_spec a b) as H1.
  pose proof (date_compare_spec b a) as H2. rewrite Hgt in H1.
  destruct (date_compare b a); [subst; lia | done | lia].
Qed.

Lemma toordinal_inj a b :
  valid_date a = true -> valid_date b = true ->
  toordinal a = toordinal b -> a = b.
Proof.
  intros Ha Hb Heq. pose proof (date_compare_spec a b) as Hs.
  destruct (date_compare a b) eqn:Hc; [done | |].
  - pose proof (toordinal_lt a b Ha Hb Hc). lia.
  - pose proof (toordinal_lt b a Hb Ha (date_compare_gt_lt _ _ Hc)). lia.
Qed.

End Ordinals.

(** ** Facts about the fitted line *)
Section FitFacts.

Lemma of_Z_inj x y : of_Z x = of_Z y -> x = y.
Proof.
  unfold of_Z. intros H. apply Q2Qc_eq_iff in H.
  by apply inject_Z_injective.
Qed.

Lemma polyfit_two_points x1 x2 (y1 y2 : Qc) :
  x1 <> x2 ->
  exists c, polyfit [x1; x2] [y1; y2] = Ok c /\
            poly1d c x1 = y1 /\ poly1d c x2 = y2.
Proof.
  intros Hne. unfold polyfit. cbn [length Nat.eqb negb fmap list_fmap zip_with].
  assert (Hx : of_Z x1 <> of_Z x2) by (intros H; by apply of_Z_inj in H).
  set (a := of_Z x1) in *. set (b := of_Z x2) in *.
  assert (H2 : of_Z 2 = (1 + 1)%Qc) by (apply Qc_is_canon; reflexivity).
  change (of_Z (Z.of_nat 2)) with (of_Z 2).
  unfold qsum; cbn [foldr]. rewrite H2.
  assert (Hdet : ((1 + 1) * (a * a + (b * b + Q2Qc 0)) -
                  (a + (b + Q2Qc 0)) * (a + (b + Q2Qc 0)))%Qc = ((a - b) * (a - b))%Qc)
    by ring.
  assert (Hnz : ((a - b) * (a - b))%Qc <> Q2Qc 0).
  { intros H. apply Qcmult_integral in H.
    assert (a - b = Q2Qc 0)%Qc as H0 by (destruct H; done).
    apply Hx. rewrite <- (Qcplus_0_r b), <- H0. ring. }
  rewrite Hdet. destruct (decide _) as [Hz | _]; [done |].
  eexists; split; [reflexivity |]. unfold poly1d; cbn [fst snd]. fold a b.
  assert (Hab : (a - b)%Qc <> Q2Qc 0).
  { intros H. apply Hnz. rewrite H. ring. }
  split; field; (split; [exact Hab | discriminate]).
Qed.
End FitFacts.

(** ** calculate_forecast *)

Section ForecastFacts.

Lemma rbind_ok {A B} (r : result A) (k : A -> result B) a :
  r = Ok a -> rbind r k = k a.
Proof. by intros ->. Qed.

Lemma to_datetime_dates ds : rmapM to_datetime (Date <$> ds) = Ok ds.
Proof. induction ds as [| d ds IH]; csimpl; [done | by rewrite IH]. Qed.

Lemma float_values_nums qs : float_values (Num <$> qs) = Ok qs.
Proof.
  unfold float_values. induction qs as [| q qs IH]; csimpl; [done | by rewrite IH].
Qed.

Lemma polyfit_ok xs ys :
  xs <> [] -> length xs = length ys -> exists c, polyfit xs ys = Ok c.
Proof.
  intros Hne Hlen. unfold polyfit. destruct xs as [| x0 xs']; [done |].
  rewrite Hlen, Nat.eqb_refl. simpl negb. cbv iota.
  destruct (decide _); eauto.
Qed.

Lemma fitted_line_ok ds qs :
  ds <> [] -> length ds = length qs ->
  exists c, fitted_line (Date <$> ds) (Num <$> qs) = Ok c /\
            polyfit (toordinal <$> ds) qs = Ok c.
Proof.
  intros Hne Hlen.
  destruct (polyfit_ok (toordinal <$> ds) qs) as [c Hc].
  - by destruct ds.
  - by rewrite length_fmap.
  - exists c. split; [| done]. unfold fitted_line, mbind, result_bind.
    rewrite to_datetime_dates. simpl. by rewrite float_values_nums.
Qed.

Lemma last_seqZ m n : 0 < n -> list.last (seqZ m n) = Some (m + n - 1).
Proof.
  intros Hn. rewrite last_lookup, length_seqZ, lookup_seqZ_lt by lia.
  f_equal. lia.
Qed.

Lemma head_seqZ m n : 0 < n -> list.head (seqZ m n) = Some m.
Proof. intros Hn. by rewrite seqZ_cons by lia. Qed.

Lemma calculate_forecast_eq ds qs y first_date last_date :
  length ds = length qs ->
  list.head ds = Some first_date -> list.last ds = Some last_date ->
  0 <= y ->
  exists c,
    fitted_line (Date <$> ds) (Num <$> qs) = Ok c /\
    let all_dates :=
      month_end_of_index <$>
        seqZ (month_index first_date)
             (month_index last_date + 12 * y - month_index first_date + 1) in
    calculate_forecast (Date <$> ds) (Num <$> qs) y =
      Ok (all_dates, (fun d => poly1d c (toordinal d)) <$> all_dates).
Proof.
  intros Hlen Hhead Hlast Hy.
  destruct (fitted_line_ok ds qs) as (c & Hc & _); [by destruct ds | done |].
  exists c. split; [done |]. cbv zeta.
  unfold calculate_forecast, mbind, result_bind. rewrite Hc. cbn [rbind to_datetime fmap option_fmap option_map list_fmap].
  unfold iloc_last. rewrite fmap_last, Hlast. cbn [rbind to_datetime fmap option_fmap option_map list_fmap].
  unfold date_range_checked.
  destruct (Z.ltb_spec (y * 12 + 1) 0) as [Hneg | _]; [lia |]. cbn [rbind to_datetime fmap option_fmap option_map list_fmap].
  unfold iloc_first. destruct ds as [| d0 ds']; [done |].
  simpl in Hhead. injection Hhead as ->. cbn [rbind to_datetime fmap option_fmap option_map list_fmap].
  unfold array_last, date_range_periods.
  rewrite fmap_last, last_seqZ by lia. cbn [rbind to_datetime fmap option_fmap option_map list_fmap].
  unfold date_range_between.
  rewrite rollback_month_end, !month_index_month_end, !month_index_rollforward.
  replace (month_index last_date + (y * 12 + 1) - 1)
    with (month_index last_date + 12 * y) by lia.
  by rewrite <- list_fmap_compose.
Qed.

End ForecastFacts.

Section ForecastClaims.

Lemma sorted_head_le_last ds first_date last_date :
  Sorted date_le ds ->
  list.head ds = Some first_date -> list.last ds = Some last_date ->
  date_le first_date last_date.
Proof.
  intros Hs Hh Hl.
  apply Sorted_StronglySorted in Hs; [| intros a b c; apply date_le_trans].
  destruct ds as [| d0 ds']; [done |]. simpl in Hh. injection Hh as ->.
  apply StronglySorted_inv in Hs as [_ Hall].
  destruct ds' as [| d1 ds''].
  - simpl in Hl. injection Hl as ->. apply date_le_refl.
  - rewrite last_cons_cons in Hl.
    eapply Forall_forall in Hall; [exact Hall |].
    apply list_elem_of_In. rewrite last_lookup in Hl.
    by eapply list_elem_of_lookup_2.
Qed.







End ForecastClaims.

(** ** The monad and the drawing primitives *)

Section Preserves.

Context (R : relation world) `{!PreOrder R}.

Lemma preserves_ret {A} (a : A) : preserves R (mret a).
Proof. intros w. reflexivity. Qed.

Lemma preserves_lift {A} (r : result A) : preserves R (lift r).
Proof. intros w. reflexivity. Qed.

Lemma preserves_get_self : preserves R get_self.
Proof. intros w. reflexivity. Qed.

Lemma preserves_load r : preserves R (load r).
Proof. intros w. unfold load. destruct (heap w !! r); reflexivity. Qed.

Lemma preserves_bind {A B} (m : M A) (k : A -> M B) :
  preserves R m -> (forall a, preserves R (k a)) -> preserves R (m ≫= k).
Proof.
  intros Hm Hk w. unfold mbind, M_bind. specialize (Hm w).
  destruct (m w) as [[a | e] w1]; cbn [snd] in *; [| done].
  etransitivity; [exact Hm | apply Hk].
Qed.

Lemma preserves_foldM {A B} (f : B -> A -> M B) l :
  (forall b a, preserves R (f b a)) -> forall b, preserves R (foldM f b l).
Proof.
  intros Hf. induction l as [| a l IH]; intros b; cbn [foldM].
  - apply preserves_ret.
  - apply preserves_bind; [apply Hf | intros b'; apply IH].
Qed.

End Preserves.

#[local] Instance same_data_preorder : PreOrder same_data.
Proof.
  split.
  - intros w. by repeat split.
  - intros w1 w2 w3 (H1 & H2 & H3 & H4) (K1 & K2 & K3 & K4).
    repeat split; congruence.
Qed.

#[local] Instance same_flag_preorder : PreOrder same_flag.
Proof.
  split.
  - intros w. reflexivity.
  - intros w1 w2 w3 H1 H2. unfold same_flag in *. congruence.
Qed.

Lemma same_data_flag w w' : same_data w w' -> same_flag w w'.
Proof. by intros (_ & H & _). Qed.

Lemma surface_only_same_flag {A} (m : M A) :
  surface_only m -> preserves same_flag m.
Proof. intros H w. apply same_data_flag, H. Qed.

Section Primitives.

Lemma surface_only_modify_ax f : surface_only (modify_ax f).
Proof. intros w. by repeat split. Qed.

Lemma surface_only_fig_layout f : surface_only (fig_layout f).
Proof. intros w. by repeat split. Qed.

Lemma surface_only_canvas_draw : surface_only canvas_draw.
Proof. intros w. by repeat split. Qed.

End Primitives.

Ltac surface :=
  unfold surface_only;
  repeat first
    [ apply preserves_bind; [typeclasses eauto | | intros ?]
    | apply preserves_foldM; [typeclasses eauto | intros ? ?]
    | apply surface_only_modify_ax
    | apply surface_only_fig_layout
    | apply surface_only_canvas_draw
    | apply preserves_get_self; typeclasses eauto
    | apply preserves_lift; typeclasses eauto
    | apply preserves_ret; typeclasses eauto
    | match goal with |- preserves _ (if ?b then _ else _) => destruct b end
    | match goal with |- preserves _ (match ?o with Some _ => _ | None => _ end) =>
        destruct o end ].

Section SurfaceMethods.

Lemma surface_only_plot_group fv kg : surface_only (plot_group fv kg).
Proof. unfold plot_group, ax_plot. surface. Qed.

Lemma surface_only_plot_whole df : surface_only (plot_whole df).
Proof. unfold plot_whole, ax_plot. surface. Qed.

Lemma surface_only_plot_series df : surface_only (plot_series df).
Proof.
  unfold plot_series. surface.
  all: first [apply surface_only_plot_whole | apply surface_only_plot_group].
Qed.

Lemma surface_only_draw df : surface_only (draw df).
Proof.
  unfold draw, ax_set_title, ax_set_labels, ax_cosmetics, ax_legend. surface.
  all: try apply surface_only_plot_series.
Qed.

Lemma surface_only_no_data : surface_only no_data.
Proof. unfold no_data, ax_clear, ax_text. surface. Qed.

Lemma surface_only_setup_initial_plot : surface_only setup_initial_plot.
Proof.
  unfold setup_initial_plot, ax_set_title, ax_set_labels, ax_text. surface.
Qed.

Lemma surface_only_show_error message : surface_only (show_error message).
Proof. unfold show_error, ax_clear, ax_text. surface. Qed.

Lemma surface_only_clear_plot : surface_only clear_plot.
Proof.
  unfold clear_plot, ax_clear. surface.
  all: try apply surface_only_setup_initial_plot.
Qed.

End SurfaceMethods.

(** ** update_plot on an absent or empty dataset, toggle_trend_line *)

Section NoDataAndToggle.

(** The no-data branch of [update_plot], as an equation. *)
Lemma update_plot_absent_or_empty w data :
  absent_or_empty w data ->
  update_plot data w =
    (Ok tt,
     mkWorld (heap w)
       (mkChart no_data_axes (S (canvas (self w))) (fig (self w))
          (accent (self w)) (show_forecast (self w)) (current_data (self w)))) /\
  texts (ax (self (update_plot data w).2)) = [placeholder no_data_message] /\
  lines (ax (self (update_plot data w).2)) = [] /\
  current_data (self (update_plot data w).2) = current_data (self w) /\
  show_forecast (self (update_plot data w).2) = show_forecast (self w).
Proof.
  intros Hdata.
  assert (Heq : update_plot data w =
    (Ok tt,
     mkWorld (heap w)
       (mkChart no_data_axes (S (canvas (self w))) (fig (self w))
          (accent (self w)) (show_forecast (self w)) (current_data (self w))))).
  { destruct data as [r |]; [| reflexivity].
    destruct Hdata as (df & Hdf & Hempty).
    unfold update_plot, mbind, M_bind, load. rewrite Hdf, Hempty. reflexivity. }
  rewrite Heq. by repeat split.
Qed.



(** The world once [update_plot] has stored the reference and cleared the
    axes (lines 71-73). *)
Lemma render_eq w r df :
  heap w !! r = Some df ->
  let s1 := set_ax blank_axes (set_current_data r (self w)) in
  render r w =
    match price ← getitem df "price"; astype_float price with
    | Raise e => (Raise e, mkWorld (heap w) s1)
    | Ok price' =>
        draw (setitem df "price" price')
             (mkWorld (<[r := setitem df "price" price']> (heap w)) s1)
    end.
Proof.
  intros Hdf s1.
  unfold render, coerce_price, mbind at 1 2 3 4 5 6 7, M_bind, load, store, lift,
    ax_clear, modify_ax, modify_self.
  cbn [heap self]. rewrite Hdf.
  unfold mbind, result_bind.
  destruct (getitem df "price") as [price | e]; cbn [rbind]; [| done].
  destruct (astype_float price) as [price' | e]; [| done].
  cbn [heap self]. by rewrite lookup_insert_eq.
Qed.

Lemma update_plot_nonempty w r df :
  heap w !! r = Some df -> empty df = false ->
  update_plot (Some r) w = (render r;; canvas_draw) w.
Proof.
  intros Hdf Hne. unfold update_plot, mbind at 1 2 3, M_bind at 1 2 3, load.
  by rewrite Hdf, Hne.
Qed.

Lemma update_plot_dangling w r :
  heap w !! r = None ->
  update_plot (Some r) w = (Raise (TypeError "dangling reference"), w).
Proof.
  intros Hdf. unfold update_plot, mbind, M_bind, load. by rewrite Hdf.
Qed.

Lemma update_plot_coerce_fail w r df e :
  heap w !! r = Some df -> empty df = false ->
  (price ← getitem df "price"; astype_float price) = Raise e ->
  update_plot (Some r) w =
    (Raise e,
     mkWorld (heap w) (set_ax blank_axes (set_current_data r (self w)))).
Proof.
  intros Hdf Hne Hfail. rewrite (update_plot_nonempty w r df Hdf Hne).
  unfold mbind at 1, M_bind at 1. rewrite (render_eq w r df Hdf).
  cbv zeta. by rewrite Hfail.
Qed.

Lemma update_plot_coerce_ok w r df price' :
  heap w !! r = Some df -> empty df = false ->
  (price ← getitem df "price"; astype_float price) = Ok price' ->
  update_plot (Some r) w =
    (draw (setitem df "price" price');; canvas_draw)
      (mkWorld (<[r := setitem df "price" price']> (heap w))
               (set_ax blank_axes (set_current_data r (self w)))).
Proof.
  intros Hdf Hne Hok. rewrite (update_plot_nonempty w r df Hdf Hne).
  unfold mbind at 1, M_bind at 1. rewrite (render_eq w r df Hdf).
  cbv zeta. by rewrite Hok.
Qed.

Lemma surface_only_draw_flush df : surface_only (draw df;; canvas_draw).
Proof.
  apply preserves_bind; [typeclasses eauto | apply surface_only_draw |].
  intros _. apply surface_only_canvas_draw.
Qed.

Lemma update_plot_same_flag data : preserves same_flag (update_plot data).
Proof.
  intros w. destruct data as [r |].
  - destruct (heap w !! r) as [df |] eqn:Hdf.
    + destruct (empty df) eqn:Hne.
      * destruct (update_plot_absent_or_empty w (Some r)) as (-> & _); [by exists df |].
        reflexivity.
      * destruct (price ← getitem df "price"; astype_float price)
          as [price' | e] eqn:Hc.
        -- rewrite (update_plot_coerce_ok w r df price' Hdf Hne Hc).
           etransitivity; [| apply same_data_flag, surface_only_draw_flush].
           reflexivity.
        -- rewrite (update_plot_coerce_fail w r df e Hdf Hne Hc). reflexivity.
    + rewrite (update_plot_dangling w r Hdf). reflexivity.
  - destruct (update_plot_absent_or_empty w None) as (-> & _); [done |]. reflexivity.
Qed.

(** [toggle_trend_line], as an equation: the flag is flipped, then
    [update_plot] runs on [current_data] if there is one. *)
Lemma toggle_trend_line_flips w :
  let flipped :=
    mkWorld (heap w)
      (set_show_forecast (negb (show_forecast (self w))) (self w)) in
  show_forecast (self (toggle_trend_line w).2) = negb (show_forecast (self w)) /\
  (current_data (self w) = None -> toggle_trend_line w = (Ok tt, flipped)) /\
  (forall r, current_data (self w) = Some r ->
             toggle_trend_line w = update_plot (Some r) flipped).
Proof.
  intros flipped.
  assert (Heq : toggle_trend_line w =
                match current_data (self w) with
                | Some r => update_plot (Some r) flipped
                | None => (Ok tt, flipped)
                end).
  { unfold toggle_trend_line, mbind at 1 2, M_bind at 1 2, modify_self, get_self.
    cbn [self heap set_show_forecast current_data].
    by destruct (current_data (self w)). }
  split; [| split].
  - rewrite Heq. destruct (current_data (self w)) as [r |]; [| done].
    by rewrite (update_plot_same_flag (Some r) flipped).
  - intros Hnone. by rewrite Heq, Hnone.
  - intros r Hsome. by rewrite Heq, Hsome.
Qed.
End NoDataAndToggle.

(** ** What the operations do to the store and to current_data *)

Section StoreEffects.

Lemma astype_float_nums l l' :
  astype_float l = Ok l' -> exists qs, l' = Num <$> qs.
Proof.
  unfold astype_float. revert l'.
  induction l as [| c l IH]; intros l' H; cbn [rmapM] in H.
  - injection H as <-. by exists [].
  - destruct (to_float c) as [q | e]; cbn [rbind] in H; [| done].
    destruct (rmapM _ l) as [bs | e]; cbn [rbind] in H; [| done].
    injection H as <-. destruct (IH bs eq_refl) as [qs ->].
    by exists (q :: qs).
Qed.

Lemma astype_float_idem qs : astype_float (Num <$> qs) = Ok (Num <$> qs).
Proof.
  unfold astype_float. induction qs as [| q qs IH]; [done |].
  rewrite fmap_cons. cbn [rmapM to_float rbind]. by rewrite IH.
Qed.

Lemma astype_float_error l e :
  astype_float l = Raise e -> coercion_error e = true.
Proof.
  unfold astype_float. induction l as [| c l IH]; cbn [rmapM]; [done |].
  destruct c as [q | s | d]; cbn [to_float rbind].
  - destruct (rmapM _ l); cbn [rbind]; [done |]. intros [= <-]. by apply IH.
  - destruct (parse_float s); cbn [rbind].
    + destruct (rmapM _ l); cbn [rbind]; [done |]. intros [= <-]. by apply IH.
    + by intros [= <-].
  - by intros [= <-].
Qed.

Lemma coerce_error df e :
  (price ← getitem df "price"; astype_float price) = Raise e ->
  coercion_error e = true.
Proof.
  unfold mbind, result_bind, getitem.
  destruct (columns df !! "price") as [l |]; cbn [rbind].
  - apply astype_float_error.
  - by intros [= <-].
Qed.

Lemma coerced_frame df price' :
  empty df = false ->
  (price ← getitem df "price"; astype_float price) = Ok price' ->
  empty (setitem df "price" price') = false /\
  price_coercible (setitem df "price" price') = true /\
  getitem (setitem df "price" price') "price" = Ok price' /\
  exists qs, price' = Num <$> qs.
Proof.
  intros Hne Hok. unfold mbind, result_bind in Hok.
  destruct (getitem df "price") as [price |]; cbn [rbind] in Hok; [| done].
  destruct (astype_float_nums _ _ Hok) as [qs ->].
  assert (Hget : getitem (setitem df "price" (Num <$> qs)) "price"
                 = Ok (Num <$> qs)).
  { unfold getitem, setitem. cbn [columns]. by rewrite lookup_insert_eq. }
  split; [| split; [| split]].
  - unfold empty, setitem in *. cbn [nrows columns].
    apply orb_false_iff in Hne as [-> _]. cbn [orb].
    apply bool_decide_eq_false. apply insert_non_empty.
  - unfold price_coercible, mbind, result_bind. rewrite Hget. cbn [rbind].
    by rewrite astype_float_idem.
  - done.
  - by exists qs.
Qed.

(** What [update_plot] does to the store and to [current_data]. *)
Lemma update_plot_store w data :
  let res := (update_plot data w).1 in
  let w' := (update_plot data w).2 in
  match data with
  | None => heap w' = heap w /\ current_data (self w') = current_data (self w)
  | Some r =>
      match heap w !! r with
      | None => heap w' = heap w /\ current_data (self w') = current_data (self w)
      | Some df =>
          if empty df
          then heap w' = heap w /\ current_data (self w') = current_data (self w)
          else current_data (self w') = Some r /\
               match price ← getitem df "price"; astype_float price with
               | Ok price' =>
                   heap w' = <[r := setitem df "price" price']> (heap w)
               | Raise e => heap w' = heap w /\ res = Raise e
               end
      end
  end.
Proof.
  cbv zeta. destruct data as [r |].
  - destruct (heap w !! r) as [df |] eqn:Hdf.
    + destruct (empty df) eqn:Hne.
      * by destruct (update_plot_absent_or_empty w (Some r)) as (-> & _); [by exists df |].
      * destruct (price ← getitem df "price"; astype_float price)
          as [price' | e] eqn:Hc.
        -- rewrite (update_plot_coerce_ok w r df price' Hdf Hne Hc).
           destruct (surface_only_draw_flush (setitem df "price" price')
                       (mkWorld (<[r := setitem df "price" price']> (heap w))
                          (set_ax blank_axes (set_current_data r (self w)))))
             as (Hh & _ & Hcd & _).
           by rewrite Hh, Hcd.
        -- by rewrite (update_plot_coerce_fail w r df e Hdf Hne Hc).
    + by rewrite (update_plot_dangling w r Hdf).
  - by destruct (update_plot_absent_or_empty w None) as (-> & _).
Qed.

End StoreEffects.

Section Runs.

Lemma step_facts_same_data w o res w' :
  heap w' = heap w -> current_data (self w') = current_data (self w) ->
  ~ stores w o -> step_facts w o res w'.
Proof.
  intros Hh Hcd Hns. unfold step_facts, nonempty_at, current_data_nonempty,
    current_data_coercible, nonempty_at. rewrite Hh, Hcd.
  repeat split; tauto.
Qed.

Lemma update_plot_facts w data :
  step_facts w (UpdatePlot data) (update_plot data w).1 (update_plot data w).2.
Proof.
  pose proof (update_plot_store w data) as Hst. cbv zeta in Hst.
  destruct data as [r |].
  - destruct (heap w !! r) as [df |] eqn:Hdf.
    + destruct (empty df) eqn:Hne.
      * destruct Hst as [Hh Hcd]. apply step_facts_same_data; [done | done |].
        intros (r' & [= <-] & df' & Hdf' & Hne'). congruence.
      * destruct Hst as [Hcd Hst].
        assert (Hstores : stores w (UpdatePlot (Some r)))
          by (exists r; split; [done | by exists df]).
        destruct (price ← getitem df "price"; astype_float price)
          as [price' | e] eqn:Hc.
        -- destruct (coerced_frame df price' Hne Hc) as (Hne' & Hco & _).
           unfold step_facts, current_data_nonempty, current_data_coercible,
             nonempty_at. rewrite Hst, Hcd.
           split; [| split; [| split]].
           ++ intros r0. destruct (decide (r0 = r)) as [-> | Hr].
              ** rewrite lookup_insert_eq. split; intros _; eauto.
              ** by rewrite lookup_insert_ne.
           ++ split; eauto.
           ++ intros _ r0 [= <-]. rewrite lookup_insert_eq. eauto.
           ++ intros _ _ r0 [= <-]. rewrite lookup_insert_eq. eauto.
        -- destruct Hst as [Hh Hres].
           unfold step_facts, current_data_nonempty, current_data_coercible,
             nonempty_at. rewrite Hh, Hcd, Hres.
           split; [done |]. split; [split; eauto |].
           split; [intros _ r0 [= <-]; eauto |].
           intros _ Hraise. cbn [raised_in_coercion] in Hraise.
           by rewrite (coerce_error df e Hc) in Hraise.
    + destruct Hst as [Hh Hcd]. apply step_facts_same_data; [done | done |].
      intros (r' & [= <-] & df' & Hdf' & _). congruence.
  - destruct Hst as [Hh Hcd]. apply step_facts_same_data; [done | done |].
    by intros (r' & [=] & _).
Qed.

Lemma surface_only_facts (m : M unit) w o :
  surface_only m -> ~ stores w o -> step_facts w o (m w).1 (m w).2.
Proof.
  intros Hm Hns. destruct (Hm w) as (Hh & _ & Hcd & _).
  by apply step_facts_same_data.
Qed.

Lemma run_op_facts w o : step_facts w o (run_op o w).1 (run_op o w).2.
Proof.
  destruct o as [| data | | message |]; cbn [run_op].
  - destruct (toggle_trend_line_flips w) as (_ & Hnone & Hsome).
    cbv zeta in Hnone, Hsome.
    set (flipped := mkWorld (heap w)
           (set_show_forecast (negb (show_forecast (self w))) (self w))) in *.
    destruct (current_data (self w)) as [r |] eqn:Hcd.
    + rewrite (Hsome r eq_refl).
      destruct (update_plot_facts flipped (Some r)) as (F1 & F2 & F3 & F4).
      unfold step_facts. split; [exact F1 |]. split; [| split].
      * split; [intros _; left; rewrite Hcd; eauto |].
        intros _. apply F2. left. cbn. rewrite Hcd. eauto.
      * intros HJ. apply F3. intros r0. cbn. exact (HJ r0).
      * intros HI. apply F4. intros r0. cbn. exact (HI r0).
    + rewrite (Hnone eq_refl). cbn [fst snd].
      apply step_facts_same_data; [done | done |]. by intros (r' & [=] & _).
  - apply update_plot_facts.
  - apply surface_only_facts; [apply surface_only_setup_initial_plot |].
    by intros (r' & [=] & _).
  - apply surface_only_facts; [apply surface_only_show_error |].
    by intros (r' & [=] & _).
  - apply surface_only_facts; [apply surface_only_clear_plot |].
    by intros (r' & [=] & _).
Qed.

End Runs.

Section RunClaims.

Lemma run_ops_cons o os w :
  run_ops (o :: os) w =
    ((run_op o w).1 :: (run_ops os (run_op o w).2).1,
     (run_ops os (run_op o w).2).2).
Proof.
  cbn [run_ops]. destruct (run_op o w) as [r w1]. cbn [fst snd].
  by destruct (run_ops os w1).
Qed.

Lemma stores_iff w w' o :
  (forall r0, nonempty_at w' r0 <-> nonempty_at w r0) ->
  stores w' o <-> stores w o.
Proof.
  intros H. unfold stores. split; intros (r & -> & Hr); exists r;
    (split; [done | by apply H]).
Qed.

Lemma run_ops_facts os w0 :
  let rs := (run_ops os w0).1 in
  let w := (run_ops os w0).2 in
  (forall r0, nonempty_at w r0 <-> nonempty_at w0 r0) /\
  (is_Some (current_data (self w)) <->
     is_Some (current_data (self w0)) \/ Exists (stores w0) os) /\
  (current_data_nonempty w0 -> current_data_nonempty w) /\
  (current_data_coercible w0 ->
     Forall (fun res => raised_in_coercion res = false) rs ->
     current_data_coercible w).
Proof.
  cbv zeta. revert w0. induction os as [| o os IH]; intros w0.
  - cbn [run_ops fst snd]. repeat split; try tauto.
    + intros [H | H]; [done | inversion H].
  - rewrite run_ops_cons. cbn [fst snd].
    destruct (run_op_facts w0 o) as (F1 & F2 & F3 & F4).
    destruct (IH (run_op o w0).2) as (G1 & G2 & G3 & G4).
    split; [| split; [| split]].
    + intros r0. by rewrite G1, F1.
    + rewrite G2, F2, Exists_cons.
      assert (Hex : Exists (stores (run_op o w0).2) os <-> Exists (stores w0) os).
      { split; intros Hs; (eapply Exists_impl; [| exact Hs]); intros x Hx;
          eapply stores_iff; try exact Hx; intros r0; by rewrite ?F1. }
      rewrite Hex. tauto.
    + auto.
    + intros HI Hall. inversion Hall; subst. auto.
Qed.


(** C5: on an absent or empty dataset [update_plot] returns normally, leaves
    on the surface the centred "no data" placeholder alone, flushes the
    canvas, and changes neither [current_data] nor [show_forecast] (nor the
    store). *)
Theorem update_plot_no_data w data :
  absent_or_empty w data ->
  (update_plot data w).1 = Ok tt /\
  ax (self (update_plot data w).2) = no_data_axes /\
  texts (ax (self (update_plot data w).2)) = [placeholder no_data_message] /\
  lines (ax (self (update_plot data w).2)) = [] /\
  canvas (self (update_plot data w).2) = S (canvas (self w)) /\
  current_data (self (update_plot data w).2) = current_data (self w) /\
  show_forecast (self (update_plot data w).2) = show_forecast (self w) /\
  heap (update_plot data w).2 = heap w.
Proof.
  intros Hdata.
  destruct (update_plot_absent_or_empty w data Hdata) as (-> & _).
  by repeat split.
Qed.

Lemma update_plot_no_data_witness :
  (update_plot (Some 0%nat) (fresh (<[0%nat := mkFrame 0 ∅]> ∅))).1 = Ok tt /\
  texts (ax (self (update_plot (Some 0%nat)
                     (fresh (<[0%nat := mkFrame 0 ∅]> ∅))).2))
    = [placeholder no_data_message].
Proof.
  destruct (update_plot_no_data (fresh (<[0%nat := mkFrame 0 ∅]> ∅)) (Some 0%nat))
    as (Hr & _ & Ht & _).
  - exists (mkFrame 0 ∅). split; reflexivity.
  - exact (conj Hr Ht).
Defined.

(** C4: after any run of operations on a fresh instance,
    [toggle_trend_line] flips [show_forecast] whatever the outcome; if some
    earlier [update_plot] stored a (non-empty) dataset, it is [update_plot]
    on that stored dataset under the new flag; if none did, it only flips
    the flag: surface, canvas and store are untouched. *)
Theorem toggle_trend_line_redraws os w0 :
  current_data (self w0) = None ->
  let w := (run_ops os w0).2 in
  let flipped :=
    mkWorld (heap w)
      (set_show_forecast (negb (show_forecast (self w))) (self w)) in
  show_forecast (self (toggle_trend_line w).2) = negb (show_forecast (self w)) /\
  (Exists (stores w0) os ->
     exists r, current_data (self w) = Some r /\ nonempty_at w r /\
               toggle_trend_line w = update_plot (Some r) flipped) /\
  (~ Exists (stores w0) os -> toggle_trend_line w = (Ok tt, flipped)).
Proof.
  intros Hfresh w flipped.
  destruct (toggle_trend_line_flips w) as (Hflip & Hnone & Hsome).
  destruct (run_ops_facts os w0) as (_ & Hset & HJ & _). fold w in Hset, HJ.
  split; [exact Hflip |]. split.
  - intros Hex. destruct (proj2 Hset (or_intror Hex)) as [r Hr].
    exists r. split; [done |]. split; [| by apply Hsome].
    apply HJ; [| done]. intros r0. by rewrite Hfresh.
  - intros Hnex. apply Hnone.
    destruct (current_data (self w)) as [r |] eqn:Hcd; [| done].
    destruct (proj1 Hset (ex_intro _ r eq_refl)) as [[r0 H0] | Hex];
      [by rewrite Hfresh in H0 | by destruct Hnex].
Qed.

Lemma toggle_trend_line_redraws_witness :
  show_forecast (self (toggle_trend_line
                         (run_ops [ShowError "oops"] (fresh ∅)).2).2) = true /\
  toggle_trend_line (run_ops [ShowError "oops"] (fresh ∅)).2 =
    (Ok tt,
     mkWorld ∅ (set_show_forecast true (self (run_ops [ShowError "oops"] (fresh ∅)).2))).
Proof.
  destruct (toggle_trend_line_redraws [ShowError "oops"] (fresh ∅) eq_refl)
    as (Hflip & _ & Hnone).
  split; [exact Hflip |]. apply Hnone.
  intros Hex. inversion Hex as [? ? (r & Heq & _) | ? ? Hnil]; [discriminate Heq | inversion Hnil].
Defined.

(** C2, as the code has it: after any run of operations on a fresh
    instance, if [current_data] is set it holds a non-empty dataset, and
    its price column is coercible provided no operation of the run raised
    during price coercion.  ([update_plot] stores the reference before it
    coerces, so a coercion failure leaves the offending dataset stored.) *)
Theorem current_data_invariant os w0 r :
  current_data (self w0) = None ->
  current_data (self (run_ops os w0).2) = Some r ->
  exists df,
    heap (run_ops os w0).2 !! r = Some df /\ empty df = false /\
    (Forall (fun res => raised_in_coercion res = false) (run_ops os w0).1 ->
     price_coercible df = true).
Proof.
  intros Hfresh Hcd.
  destruct (run_ops_facts os w0) as (_ & _ & HJ & HI).
  destruct (HJ (fun r0 H => ltac:(by rewrite Hfresh in H)) r Hcd)
    as (df & Hdf & Hne).
  exists df. split; [done |]. split; [done |]. intros Hclean.
  destruct (HI (fun r0 H => ltac:(by rewrite Hfresh in H)) Hclean r Hcd)
    as (df' & Hdf' & _ & Hco).
  congruence.
Qed.

End RunClaims.

(** ** Coercion in place, and the columns the title reads *)

Section InPlace.

(** C2 as stated fails: [update_plot] on a dataset whose price is "abc"
    raises during coercion and leaves that dataset as [current_data]. *)
Lemma current_data_invariant_counterexample :
  ~ (forall os w0 r,
       current_data (self w0) = None ->
       current_data (self (run_ops os w0).2) = Some r ->
       exists df,
         heap (run_ops os w0).2 !! r = Some df /\ empty df = false /\
         price_coercible df = true).
Proof.
  intros H.
  destruct (H [UpdatePlot (Some 0%nat)] (fresh (<[0%nat := frame_abc]> ∅)) 0%nat)
    as (df & Hdf & _ & Hco).
  - reflexivity.
  - vm_compute. reflexivity.
  - vm_compute in Hdf. injection Hdf as <-. vm_compute in Hco. discriminate Hco.
Qed.

Example update_plot_abc_raises :
  (update_plot (Some 0%nat) (fresh (<[0%nat := frame_abc]> ∅))).1
  = Raise (ValueError "could not convert string to float").
Proof. vm_compute. reflexivity. Qed.



End InPlace.

(** ** The title: columns read without a check *)

Section Title.

Lemma main_title_setitem df l : main_title (setitem df "price" l) = main_title df.
Proof.
  unfold main_title, avg_desc, first_cell, getitem, has_column, setitem.
  cbn [columns]. by rewrite !lookup_insert_ne by done.
Qed.

Lemma location_cols_setitem df l :
  location_cols_of (setitem df "price" l) = location_cols_of df.
Proof.
  unfold location_cols_of, has_column, setitem.
  cbn [columns]. by rewrite !lookup_insert_ne by done.
Qed.

Lemma draw_title_raises df w e :
  main_title df = Raise e -> draw df w = (Raise e, w).
Proof. intros H. unfold draw, mbind, M_bind, lift. by rewrite H. Qed.

Lemma update_plot_title_raises w r df e :
  heap w !! r = Some df -> empty df = false ->
  price_coercible df = true -> main_title df = Raise e ->
  (update_plot (Some r) w).1 = Raise e.
Proof.
  intros Hdf Hne Hco Ht. unfold price_coercible in Hco.
  destruct (price ← getitem df "price"; astype_float price)
    as [price' | e'] eqn:Hc; [| done].
  rewrite (update_plot_coerce_ok w r df price' Hdf Hne Hc).
  unfold mbind at 1, M_bind at 1.
  by rewrite (draw_title_raises _ _ e) by (by rewrite main_title_setitem).
Qed.

Lemma update_plot_raises w r df e :
  heap w !! r = Some df -> empty df = false ->
  main_title df = Raise e -> exists e', (update_plot (Some r) w).1 = Raise e'.
Proof.
  intros Hdf Hne Ht.
  destruct (price_coercible df) eqn:Hco.
  - exists e. by apply update_plot_title_raises with df.
  - unfold price_coercible in Hco.
    destruct (price ← getitem df "price"; astype_float price)
      as [price' | e'] eqn:Hc; [done |].
    exists e'. by rewrite (update_plot_coerce_fail w r df e' Hdf Hne Hc).
Qed.

Lemma wf_frameb_correct df : wf_frameb df = true -> wf_frame df.
Proof.
  unfold wf_frameb, wf_frame. intros H c l Hl.
  apply bool_decide_eq_true in H. exact (H c l Hl).
Qed.

Lemma has_column_true df c :
  has_column df c = true -> exists l, columns df !! c = Some l.
Proof. unfold has_column. intros H. by apply bool_decide_eq_true in H as [l Hl]; eauto. Qed.

Lemma has_column_false df c : has_column df c = false -> columns df !! c = None.
Proof.
  unfold has_column. intros H. apply bool_decide_eq_false in H.
  destruct (columns df !! c); [by destruct H |done].
Qed.

Lemma first_cell_missing df c : has_column df c = false -> first_cell df c = Raise (KeyError c).
Proof.
  intros H. unfold first_cell, mbind, result_bind, getitem.
  by rewrite (has_column_false df c H).
Qed.

Lemma first_cell_present df c :
  wf_frame df -> empty df = false -> has_column df c = true ->
  exists x, first_cell df c = Ok x.
Proof.
  intros Hwf Hne Hc. destruct (has_column_true df c Hc) as [l Hl].
  unfold first_cell, mbind, result_bind, getitem. rewrite Hl. cbn [rbind].
  pose proof (Hwf c l Hl) as Hlen. unfold empty in Hne.
  apply orb_false_iff in Hne as [Hn _]. apply Nat.eqb_neq in Hn.
  destruct l as [| x l']; [simpl in Hlen; lia |]. by exists x.
Qed.

(** The title of a frame with a city column and no stateabbr column. *)
Lemma main_title_city_without_state df :
  has_column df "city" = true -> has_column df "stateabbr" = false ->
  (exists e, main_title df = Raise e) /\
  (wf_frame df -> empty df = false ->
   main_title df = Raise (KeyError "stateabbr")).
Proof.
  intros Hcity Hstate. unfold main_title. rewrite Hcity.
  rewrite (first_cell_missing df "stateabbr" Hstate).
  unfold mbind, result_bind. split.
  - destruct (first_cell df "city"); cbn [rbind]; eauto.
  - intros Hwf Hne. by destruct (first_cell_present df "city" Hwf Hne Hcity) as [x ->].
Qed.

(** The title of a frame without an included_zipcodes column. *)
Lemma main_title_without_zipcodes df :
  has_column df "included_zipcodes" = false ->
  (exists e, main_title df = Raise e) /\
  (wf_frame df -> empty df = false ->
   main_title df =
     Raise (KeyError (if has_column df "city" && negb (has_column df "stateabbr")
                      then "stateabbr" else "included_zipcodes"))).
Proof.
  intros Hzip.
  assert (Havg : avg_desc df = Raise (KeyError "included_zipcodes")).
  { unfold avg_desc, mbind, result_bind.
    by rewrite (first_cell_missing df _ Hzip). }
  unfold main_title. rewrite Havg. unfold mbind, result_bind.
  destruct (has_column df "city") eqn:Hcity;
    [| destruct (has_column df "stateabbr") eqn:Hstate].
  - split.
    + destruct (first_cell df "city"); cbn [rbind]; [| eauto].
      destruct (first_cell df "stateabbr"); cbn [rbind]; eauto.
    + intros Hwf Hne.
      destruct (first_cell_present df "city" Hwf Hne Hcity) as [x ->].
      cbn [rbind andb]. destruct (has_column df "stateabbr") eqn:Hstate.
      * by destruct (first_cell_present df "stateabbr" Hwf Hne Hstate) as [y ->].
      * by rewrite (first_cell_missing df "stateabbr" Hstate).
  - split.
    + destruct (first_cell df "stateabbr"); cbn [rbind]; eauto.
    + intros Hwf Hne.
      by destruct (first_cell_present df "stateabbr" Hwf Hne Hstate) as [y ->].
  - split; [eauto | done].
Qed.





End Title.

(** ** groupby: the keys *)

Section GroupKeys.

Lemma date_compare_antisym a b : date_compare a b = CompOpp (date_compare b a).
Proof.
  unfold date_compare.
  rewrite (Z.compare_antisym (year b)), (Z.compare_antisym (month b)),
    (Z.compare_antisym (day b)).
  destruct (year b ?= year a); cbn [CompOpp]; try done.
  destruct (month b ?= month a); cbn [CompOpp]; try done.
Qed.

Lemma cell_compare_antisym a b : cell_compare a b = CompOpp (cell_compare b a).
Proof.
  destruct a as [x | x | x], b as [y | y | y]; cbn [cell_compare cell_rank]; try done.
  - unfold Qccompare. by rewrite <- Qcompare_antisym.
  - apply String.compare_antisym.
  - apply date_compare_antisym.
Qed.

Lemma key_compare_antisym a b : key_compare a b = CompOpp (key_compare b a).
Proof.
  revert b. induction a as [| x a IH]; intros [| y b]; cbn [key_compare]; try done.
  rewrite (cell_compare_antisym x y), (IH b).
  by destruct (cell_compare y x).
Qed.

Lemma key_compare_gt_le a b : key_compare a b = Gt -> key_le b a.
Proof.
  intros H. unfold key_le. rewrite key_compare_antisym, H. done.
Qed.

Lemma insert_key_perm k ks : insert_key k ks ≡ₚ k :: ks.
Proof.
  induction ks as [| k' ks IH]; cbn [insert_key]; [done |].
  destruct (key_compare k k'); try done.
  rewrite IH. apply Permutation_swap.
Qed.

Lemma insert_key_sorted k ks :
  Sorted key_le ks -> Sorted key_le (insert_key k ks).
Proof.
  induction ks as [| k' ks IH]; intros Hs; cbn [insert_key].
  - by repeat constructor.
  - destruct (key_compare k k') eqn:Hc.
    + constructor; [done |]. constructor. unfold key_le. by rewrite Hc.
    + constructor; [done |]. constructor. unfold key_le. by rewrite Hc.
    + apply Sorted_inv in Hs as [Hs Hhd].
      constructor; [by apply IH |].
      destruct ks as [| k'' ks']; cbn [insert_key].
      * constructor. by apply key_compare_gt_le.
      * destruct (key_compare k k''); constructor;
          first [by apply key_compare_gt_le | by inversion Hhd].
Qed.

Lemma sort_keys_perm ks : sort_keys ks ≡ₚ ks.
Proof.
  induction ks as [| k ks IH]; cbn [sort_keys foldr]; [done |].
  etransitivity; [apply insert_key_perm |]. by constructor.
Qed.

Lemma sort_keys_sorted ks : Sorted key_le (sort_keys ks).
Proof.
  induction ks as [| k ks IH]; cbn [sort_keys foldr]; [constructor |].
  by apply insert_key_sorted.
Qed.

Lemma group_keys_perm keys : group_keys keys ≡ₚ remove_dups keys.
Proof. apply sort_keys_perm. Qed.

Lemma group_keys_NoDup keys : NoDup (group_keys keys).
Proof. rewrite group_keys_perm. apply NoDup_remove_dups. Qed.

Lemma elem_of_group_keys keys k : k ∈ group_keys keys <-> k ∈ keys.
Proof. rewrite group_keys_perm. apply elem_of_remove_dups. Qed.

Lemma length_group_keys keys : length (group_keys keys) = length (remove_dups keys).
Proof. by rewrite group_keys_perm. Qed.

Lemma group_keys_sorted keys : Sorted key_le (group_keys keys).
Proof. apply sort_keys_sorted. Qed.

End GroupKeys.

(** ** groupby: the groups *)

Section Groups.

Lemma select_fmap {A B} (f : A -> B) mask (l : list A) :
  select mask (f <$> l) = f <$> select mask l.
Proof.
  revert l. induction mask as [| b mask IH]; intros [| x l]; try done.
  rewrite fmap_cons. cbn [select]. rewrite IH. by destruct b.
Qed.

Lemma length_select {A B} mask (l1 : list A) (l2 : list B) :
  length l1 = length l2 -> length (select mask l1) = length (select mask l2).
Proof.
  revert l1 l2. induction mask as [| b mask IH]; intros [| x l1] [| y l2] H;
    try done.
  cbn [select]. injection H as H. destruct b; cbn [length]; by rewrite (IH l1 l2).
Qed.

Lemma select_Forall {A} (P : A -> Prop) mask l :
  Forall P l -> Forall P (select mask l).
Proof.
  revert l. induction mask as [| b mask IH]; intros [| x l] H; try constructor.
  cbn [select]. inversion H; subst. destruct b; [constructor |]; auto.
Qed.

Lemma select_StronglySorted {A} (R : relation A) mask l :
  StronglySorted R l -> StronglySorted R (select mask l).
Proof.
  revert l. induction mask as [| b mask IH]; intros [| x l] H; try constructor.
  cbn [select]. apply StronglySorted_inv in H as [Hs Hall].
  destruct b; [constructor |]; auto using select_Forall.
Qed.

Lemma select_key_mask_nonempty {A} keys k (l : list A) :
  k ∈ keys -> length l = length keys -> select (key_mask keys k) l <> [].
Proof.
  unfold key_mask. revert l.
  induction keys as [| k' keys IH]; intros l Hin Hlen; [by inversion Hin |].
  destruct l as [| x l]; [done |]. rewrite fmap_cons. cbn [select].
  destruct (bool_decide (k' = k)) eqn:Hk; [done |].
  apply bool_decide_eq_false in Hk.
  apply IH; [| by injection Hlen].
  apply elem_of_cons in Hin as [-> | Hin]; [done | done].
Qed.

Lemma length_row_keys n cs : length (row_keys n cs) = n.
Proof. unfold row_keys. by rewrite length_fmap, length_seq. Qed.

Lemma getitem_sub_frame df mask c :
  getitem (sub_frame df mask) c =
    match columns df !! c with
    | Some l => Ok (select mask l)
    | None => Raise (KeyError c)
    end.
Proof.
  unfold getitem, sub_frame. cbn [columns]. rewrite lookup_fmap.
  by destruct (columns df !! c).
Qed.

End Groups.

(** ** The series drawn by update_plot *)

Section Series.

Lemma calculate_forecast_ok ds qs :
  ds <> [] -> length ds = length qs ->
  exists fc, calculate_forecast (Date <$> ds) (Num <$> qs) 6 = Ok fc.
Proof.
  intros Hne Hlen.
  destruct (list.head ds) as [d0 |] eqn:Hh; [| by destruct ds].
  destruct (proj2 (last_is_Some ds) Hne) as [d1 Hl].
  destruct (calculate_forecast_eq ds qs 6 d0 d1) as (c & _ & Heq); try done.
  cbv zeta in Heq. eauto.
Qed.

Lemma calculate_forecast_ascending ds qs :
  ds <> [] -> length ds = length qs ->
  Forall (fun d => valid_date d = true) ds -> Sorted date_le ds ->
  exists fc x, calculate_forecast (Date <$> ds) (Num <$> qs) 6 = Ok fc /\
               list.last fc.2 = Some x.
Proof.
  intros Hne Hlen Hvalid Hsorted.
  destruct (list.head ds) as [d0 |] eqn:Hh; [| by destruct ds].
  destruct (proj2 (last_is_Some ds) Hne) as [d1 Hl].
  assert (Hv0 : valid_date d0 = true).
  { eapply Forall_forall in Hvalid; [exact Hvalid |]. apply list_elem_of_In.
    destruct ds; [done |]. injection Hh as ->. by left. }
  assert (Hv1 : valid_date d1 = true).
  { eapply Forall_forall in Hvalid; [exact Hvalid |]. apply list_elem_of_In.
    rewrite last_lookup in Hl. by eapply list_elem_of_lookup_2. }
  apply valid_date_bounds in Hv0 as (_ & Hm0 & _).
  apply valid_date_bounds in Hv1 as (_ & Hm1 & _).
  pose proof (sorted_head_le_last _ _ _ Hsorted Hh Hl) as Hle.
  apply date_le_month_index in Hle; [| done | done].
  destruct (calculate_forecast_eq ds qs 6 d0 d1) as (c & _ & Heq); try done.
  cbv zeta in Heq. eexists. eexists. split; [exact Heq |].
  cbn [snd]. rewrite !fmap_last, last_seqZ by lia. reflexivity.
Qed.

Lemma add_lines_nil w : add_lines [] w = w.
Proof.
  destruct w as [h [a c f acc sf cd]]. destruct a.
  unfold add_lines, set_ax. cbn. by rewrite app_nil_r.
Qed.

Lemma add_lines_app l1 l2 w : add_lines l2 (add_lines l1 w) = add_lines (l1 ++ l2) w.
Proof. unfold add_lines, set_ax. cbn. by rewrite app_assoc. Qed.

Lemma ax_plot_add_lines l w : ax_plot l w = (Ok tt, add_lines [l] w).
Proof. reflexivity. Qed.

(** One group: its actual line, then its forecast line when the flag is set. *)
Lemma plot_group_ok fv kg w d p :
  getitem kg.2 "date" = Ok d -> getitem kg.2 "price" = Ok p ->
  (show_forecast (self w) = true -> is_ok (calculate_forecast d p 6) = true) ->
  plot_group fv kg w =
    (Ok (if show_forecast (self w)
         then match calculate_forecast d p 6 with
              | Ok fc => Some fc.2
              | Raise _ => None
              end
         else fv),
     add_lines (group_lines (show_forecast (self w)) kg) w).
Proof.
  intros Hd Hp Hfc.
  unfold plot_group, group_lines, mbind, M_bind, lift, get_self. rewrite Hd, Hp.
  rewrite ax_plot_add_lines. cbn [self add_lines set_ax show_forecast].
  destruct (show_forecast (self w)) eqn:Hshow.
  - specialize (Hfc eq_refl).
    destruct (calculate_forecast d p 6) as [fc | e]; [| done].
    rewrite ax_plot_add_lines, add_lines_app. reflexivity.
  - reflexivity.
Qed.


Lemma last_forecast_cons show fv kg gs :
  last_forecast show (if show then group_values kg.2 else fv) gs =
  last_forecast show fv (kg :: gs).
Proof.
  unfold last_forecast. destruct show; [| done].
  destruct gs as [| kg' gs']; [reflexivity |]. rewrite last_cons_cons.
  by destruct (proj2 (last_is_Some (kg' :: gs')) ltac:(done)) as [x ->].
Qed.

(** The loop over the groups. *)
Lemma foldM_plot_group gs :
  forall fv w,
    Forall (group_ok (show_forecast (self w))) gs ->
    foldM plot_group fv gs w =
      (Ok (last_forecast (show_forecast (self w)) fv gs),
       add_lines (flat_map (group_lines (show_forecast (self w))) gs) w).
Proof.
  induction gs as [| kg gs IH]; intros fv w Hok.
  - cbn [foldM flat_map]. rewrite add_lines_nil. unfold last_forecast.
    by destruct (show_forecast (self w)).
  - inversion Hok as [| ? ? (Hd & Hp & Hfc) Hrest]; subst.
    destruct (getitem kg.2 "date") as [d |] eqn:Ed; [| done].
    destruct (getitem kg.2 "price") as [p |] eqn:Ep; [| done].
    assert (Hg : group_forecast kg.2 = calculate_forecast d p 6).
    { unfold group_forecast, mbind, result_bind. by rewrite Ed, Ep. }
    rewrite Hg in Hfc.
    cbn [foldM]. unfold mbind at 1, M_bind at 1.
    rewrite (plot_group_ok fv kg w d p Ed Ep Hfc).
    rewrite IH by exact Hrest.
    cbn [self add_lines set_ax show_forecast flat_map].
    rewrite add_lines_app. f_equal. f_equal.
    rewrite <- last_forecast_cons. unfold group_values. by rewrite Hg.
Qed.

Lemma count_group_lines show gs :
  Forall (group_ok show) gs ->
  count_lines is_actual (flat_map (group_lines show) gs) = length gs /\
  count_lines is_forecast (flat_map (group_lines show) gs) =
    (if show then length gs else 0%nat).
Proof.
  unfold count_lines. induction 1 as [| kg gs (Hd & Hp & Hfc) _ [IH1 IH2]].
  - by destruct show.
  - cbn [flat_map]. rewrite !List.filter_app, !length_app, IH1, IH2.
    unfold group_lines.
    destruct (getitem kg.2 "date") as [d |] eqn:Ed; [| done].
    destruct (getitem kg.2 "price") as [p |] eqn:Ep; [| done].
    destruct show; [| done].
    assert (Hg : group_forecast kg.2 = calculate_forecast d p 6).
    { unfold group_forecast, mbind, result_bind. by rewrite Ed, Ep. }
    rewrite Hg in Hfc. specialize (Hfc eq_refl).
    by destruct (calculate_forecast d p 6).
Qed.

(** The single series of a frame without grouping columns. *)
Lemma plot_whole_ok df w d p :
  getitem df "date" = Ok d -> getitem df "price" = Ok p ->
  (show_forecast (self w) = true -> is_ok (calculate_forecast d p 6) = true) ->
  plot_whole df w =
    (Ok (if show_forecast (self w) then group_values df else None),
     add_lines (whole_lines (show_forecast (self w)) (accent (self w)) df) w).
Proof.
  intros Hd Hp Hfc.
  unfold plot_whole, whole_lines, group_values, group_forecast, mbind, M_bind,
    result_bind, lift, get_self.
  rewrite Hd, Hp. cbn [rbind].
  rewrite ax_plot_add_lines. cbn [self add_lines set_ax show_forecast accent].
  destruct (show_forecast (self w)) eqn:Hshow.
  - specialize (Hfc eq_refl).
    destruct (calculate_forecast d p 6) as [fc | e]; [| done].
    rewrite ax_plot_add_lines, add_lines_app. reflexivity.
  - reflexivity.
Qed.

End Series.

(** ** draw, when nothing raises *)

Section Draw.

Lemma plot_series_ok df w :
  series_ok (show_forecast (self w)) df ->
  plot_series df w =
    (Ok (has_multiple df, series_forecast (show_forecast (self w)) df),
     add_lines (series_lines (show_forecast (self w)) (accent (self w)) df) w).
Proof.
  unfold series_ok, plot_series, has_multiple, series_forecast, series_lines,
    groups_of.
  destruct (bool_decide (location_cols_of df = [])) eqn:Hloc.
  - intros (Hd & Hp & Hfc). cbn [snd] in *.
    destruct (getitem df "date") as [d |] eqn:Ed; [| done].
    destruct (getitem df "price") as [p |] eqn:Ep; [| done].
    assert (Hg : group_forecast df = calculate_forecast d p 6).
    { unfold group_forecast, mbind, result_bind. by rewrite Ed, Ep. }
    rewrite Hg in Hfc.
    unfold mbind at 1, M_bind at 1.
    by rewrite (plot_whole_ok df w d p Ed Ep Hfc).
  - intros (Hg & Hall).
    destruct (groupby df (location_cols_of df)) as [gs |] eqn:Eg; [| done].
    unfold mbind at 1 2, M_bind at 1 2, lift.
    by rewrite (foldM_plot_group gs None w Hall).
Qed.

Lemma draw_ok df w mt st :
  main_title df = Ok mt ->
  series_ok (show_forecast (self w)) df ->
  stats_text df (show_forecast (self w))
    (series_forecast (show_forecast (self w)) df) = Ok st ->
  exists w',
    draw df w = (Ok tt, w') /\
    lines (ax (self w')) =
      lines (ax (self w)) ++
      series_lines (show_forecast (self w)) (accent (self w)) df /\
    title (ax (self w')) = (Lit nl :: mt) ++ st /\
    legend (ax (self w')) =
      (if has_multiple df || show_forecast (self w)
       then Some "lower right" else legend (ax (self w))) /\
    fig (self w') =
      (if has_multiple df || show_forecast (self w)
       then BottomMargin (Q2Qc (2 # 10)) else TightLayout) /\
    texts (ax (self w')) = texts (ax (self w)) /\
    canvas (self w') = canvas (self w).
Proof.
  intros Hmt Hser Hst.
  unfold draw, mbind, M_bind, lift. rewrite Hmt.
  rewrite (plot_series_ok df w Hser).
  unfold ax_set_title, ax_set_labels, ax_cosmetics, ax_legend, fig_layout,
    modify_ax, modify_self, get_self.
  cbn [self add_lines set_ax set_fig show_forecast ax fst snd heap title lines
       texts xlabel ylabel legend date_axis currency_axis grid accent canvas fig
       current_data].
  rewrite Hst.
  cbn [self add_lines set_ax set_fig show_forecast ax fst snd heap title lines
       texts xlabel ylabel legend date_axis currency_axis grid accent canvas fig
       current_data].
  destruct (has_multiple df || show_forecast (self w)); eexists;
    (split; [reflexivity | by repeat split]).
Qed.

End Draw.

(** ** The input contract is enough *)

Section Contract.

Lemma astype_float_length l l' : astype_float l = Ok l' -> length l' = length l.
Proof.
  unfold astype_float. revert l'.
  induction l as [| c l IH]; intros l' H; cbn [rmapM] in H.
  - by injection H as <-.
  - destruct (to_float c) as [q | e]; cbn [rbind] in H; [| done].
    destruct (rmapM _ l) as [bs | e]; cbn [rbind] in H; [| done].
    injection H as <-. cbn [length]. by rewrite (IH bs eq_refl).
Qed.

Lemma nrows_nonzero df : empty df = false -> nrows df <> 0%nat.
Proof.
  unfold empty. intros H. apply orb_false_iff in H as [H _].
  by apply Nat.eqb_neq in H.
Qed.

(** What the contract says of the coerced price column. *)
Lemma contract_price df :
  input_contract df ->
  exists qs, (price ← getitem df "price"; astype_float price) = Ok (Num <$> qs) /\
             length qs = nrows df.
Proof.
  intros (Hwf & Hne & Hco & _). unfold price_coercible in Hco.
  unfold mbind, result_bind, getitem in *.
  destruct (columns df !! "price") as [l |] eqn:Hl; cbn [rbind] in *; [| done].
  destruct (astype_float l) as [l' |] eqn:Ha; [| done].
  destruct (astype_float_nums l l' Ha) as [qs ->].
  exists qs. split; [done |].
  apply astype_float_length in Ha. rewrite length_fmap in Ha.
  by rewrite Ha, (Hwf _ _ Hl).
Qed.

Lemma main_title_ok df :
  input_contract df -> exists mt, main_title df = Ok mt.
Proof.
  intros (Hwf & Hne & _ & _ & (l & Hl & Hz) & Hcity).
  assert (Havg : avg_desc df = Ok tt).
  { unfold avg_desc, first_cell, mbind, result_bind, getitem. rewrite Hl.
    cbn [rbind]. pose proof (Hwf _ _ Hl) as Hlen.
    pose proof (nrows_nonzero df Hne) as Hn.
    destruct l as [| z l']; [simpl in Hlen; lia |]. cbn [iloc_first rbind].
    destruct z as [q | s | d]; [done | | done]. by destruct (Hz s). }
  unfold main_title. rewrite Havg. unfold mbind, result_bind.
  destruct (has_column df "city") eqn:Hc.
  - destruct (first_cell_present df "city" Hwf Hne Hc) as [x ->].
    destruct (first_cell_present df "stateabbr" Hwf Hne (Hcity eq_refl)) as [y ->].
    cbn [rbind]. eauto.
  - destruct (has_column df "stateabbr") eqn:Hs; cbn [rbind]; [| eauto].
    destruct (first_cell_present df "stateabbr" Hwf Hne Hs) as [y ->].
    cbn [rbind]. eauto.
Qed.

Lemma stats_text_ok df qs show fv :
  getitem df "price" = Ok (Num <$> qs) ->
  (show = true -> exists v x, fv = Some v /\ list.last v = Some x) ->
  stats_text df show fv =
    Ok (stats_pieces qs ++
        (if show
         then match fv ≫= list.last with
              | Some x => forecast_pieces x
              | None => []
              end
         else [])).
Proof.
  intros Hp Hfv. unfold stats_text, mbind at 1 2, result_bind. rewrite Hp.
  cbn [rbind]. rewrite float_values_nums. cbn [rbind].
  destruct show.
  - destruct (Hfv eq_refl) as (v & x & -> & Hx).
    unfold array_last, mbind, result_bind, option_bind. rewrite Hx. reflexivity.
  - by rewrite app_nil_r.
Qed.

End Contract.

Section Ready.

(** The frame as [draw] receives it: a float price column [qs], a date
    column [d] as long, and calendar dates in ascending order when the
    forecast is on. *)
Context (df : DataFrame) (qs : list Qc) (d : list cell) (show : bool).
Hypothesis Hprice : columns df !! "price" = Some (Num <$> qs).
Hypothesis Hdate : columns df !! "date" = Some d.
Hypothesis Hlen : length d = length qs.
Hypothesis Hasc :
  show = true ->
  exists ds, d = Date <$> ds /\ Forall (fun x => valid_date x = true) ds /\
             Sorted date_le ds.

Lemma forecast_ready mask :
  show = true -> select mask qs <> [] ->
  exists fc x,
    calculate_forecast (select mask d) (select mask (Num <$> qs)) 6 = Ok fc /\
    list.last fc.2 = Some x.
Proof.
  intros Hshow Hne. destruct (Hasc Hshow) as (ds & -> & Hvalid & Hsorted).
  rewrite !select_fmap. rewrite length_fmap in Hlen.
  apply calculate_forecast_ascending.
  - intros Hnil. apply Hne.
    apply length_zero_iff_nil. rewrite <- (length_select mask ds qs Hlen).
    by rewrite Hnil.
  - by apply length_select.
  - by apply select_Forall.
  - apply StronglySorted_Sorted, select_StronglySorted.
    apply Sorted_StronglySorted; [| done]. intros a b c. apply date_le_trans.
Qed.

Lemma group_ready keys k :
  length keys = length qs -> k ∈ keys ->
  group_ok show (k, sub_frame df (key_mask keys k)) /\
  (show = true ->
   exists v x, group_values (sub_frame df (key_mask keys k)) = Some v /\
               list.last v = Some x).
Proof.
  intros Hk Hin.
  assert (Hne : select (key_mask keys k) qs <> [])
    by (by apply select_key_mask_nonempty).
  assert (Hg : group_forecast (sub_frame df (key_mask keys k)) =
               calculate_forecast (select (key_mask keys k) d)
                 (select (key_mask keys k) (Num <$> qs)) 6).
  { unfold group_forecast, mbind, result_bind.
    by rewrite !getitem_sub_frame, Hdate, Hprice. }
  unfold group_ok, group_values. cbn [snd]. rewrite Hg.
  rewrite !getitem_sub_frame, Hdate, Hprice.
  split; [split; [done | split; [done |]] |]; intros Hshow;
    destruct (forecast_ready (key_mask keys k) Hshow Hne) as (fc & x & -> & Hx);
    eauto.
Qed.

Lemma select_all {A} (l : list A) : select (replicate (length l) true) l = l.
Proof. induction l as [| x l IH]; [done |]. cbn. by rewrite IH. Qed.

Lemma whole_ready :
  qs <> [] ->
  group_ok show ([], df) /\
  (show = true -> exists v x, group_values df = Some v /\ list.last v = Some x).
Proof.
  intros Hne.
  assert (Hg : group_forecast df = calculate_forecast d (Num <$> qs) 6).
  { unfold group_forecast, mbind, result_bind, getitem. by rewrite Hdate, Hprice. }
  assert (Hfc : show = true ->
                exists fc x, calculate_forecast d (Num <$> qs) 6 = Ok fc /\
                             list.last fc.2 = Some x).
  { intros Hshow.
    destruct (forecast_ready (replicate (length qs) true) Hshow) as (fc & x & H & Hx).
    - by rewrite select_all.
    - exists fc, x. split; [| done].
      rewrite <- H. rewrite select_fmap, select_all.
      rewrite <- Hlen at 1. by rewrite select_all. }
  unfold group_ok, group_values, getitem. cbn [snd]. rewrite Hg, Hdate, Hprice.
  split; [split; [done | split; [done |]] |]; intros Hshow;
    destruct (Hfc Hshow) as (fc & x & -> & Hx); eauto.
Qed.

End Ready.

Section SeriesReady.

Lemma location_getitems df :
  exists cs, rmapM (getitem df) (location_cols_of df) = Ok cs.
Proof.
  unfold location_cols_of.
  destruct (has_column df "stateabbr") eqn:H1; [| by exists []].
  destruct (has_column_true df _ H1) as [l1 E1].
  destruct (has_column df "city") eqn:H2.
  - destruct (has_column_true df _ H2) as [l2 E2].
    destruct (has_column df "zipcode") eqn:H3.
    + destruct (has_column_true df _ H3) as [l3 E3].
      exists [l1; l2; l3]. unfold getitem. cbn [rmapM]. by rewrite E1, E2, E3.
    + exists [l1; l2]. unfold getitem. cbn [rmapM]. by rewrite E1, E2.
  - exists [l1]. unfold getitem. cbn [rmapM]. by rewrite E1.
Qed.

Lemma groups_of_eq df :
  groups_of df =
    (fun k => (k, sub_frame df (key_mask (location_keys df) k))) <$>
      group_keys (location_keys df).
Proof.
  unfold groups_of, groupby, location_keys.
  destruct (location_getitems df) as [cs ->]. reflexivity.
Qed.

Lemma groupby_ok df : is_ok (groupby df (location_cols_of df)) = true.
Proof. unfold groupby. by destruct (location_getitems df) as [cs ->]. Qed.

Lemma length_location_keys df :
  location_cols_of df <> [] -> length (location_keys df) = nrows df.
Proof.
  intros _. unfold location_keys.
  destruct (location_getitems df) as [cs ->]. apply length_row_keys.
Qed.

Lemma length_groups_of df :
  length (groups_of df) = length (remove_dups (location_keys df)).
Proof. by rewrite groups_of_eq, length_fmap, length_group_keys. Qed.

Lemma group_keys_of df : (groups_of df).*1 = group_keys (location_keys df).
Proof.
  rewrite groups_of_eq, <- list_fmap_compose.
  induction (group_keys (location_keys df)) as [| k ks IH]; [done |].
  rewrite fmap_cons. cbn. by rewrite IH.
Qed.

(** Under the hypotheses of section [Ready], nothing raises while the series
    are drawn, and with the forecast on the last forecast is not empty. *)
Lemma series_ready df qs d show :
  columns df !! "price" = Some (Num <$> qs) ->
  columns df !! "date" = Some d ->
  length d = length qs -> nrows df = length qs -> qs <> [] ->
  (show = true ->
   exists ds, d = Date <$> ds /\ Forall (fun x => valid_date x = true) ds /\
              Sorted date_le ds) ->
  series_ok show df /\
  (show = true ->
   exists v x, series_forecast show df = Some v /\ list.last v = Some x).
Proof.
  intros Hprice Hdate Hlen Hn Hne Hasc.
  unfold series_ok, series_forecast.
  destruct (bool_decide (location_cols_of df = [])) eqn:Hloc.
  - destruct (whole_ready df qs d show Hprice Hdate Hlen Hasc Hne) as [Hok Hv].
    split; [done |]. intros Hshow. rewrite Hshow. by apply Hv.
  - apply bool_decide_eq_false in Hloc.
    assert (Hk : length (location_keys df) = length qs)
      by (by rewrite length_location_keys).
    assert (Hgrp : forall k, k ∈ group_keys (location_keys df) ->
              group_ok show (k, sub_frame df (key_mask (location_keys df) k)) /\
              (show = true ->
               exists v x,
                 group_values (sub_frame df (key_mask (location_keys df) k))
                   = Some v /\ list.last v = Some x)).
    { intros k Hin. apply (proj1 (elem_of_group_keys _ _)) in Hin.
      by apply (group_ready df qs d show Hprice Hdate Hlen Hasc). }
    split; [split; [apply groupby_ok |] |].
    + rewrite groups_of_eq. apply Forall_fmap, Forall_forall.
      intros k Hin. apply list_elem_of_In in Hin. by apply Hgrp.
    + intros Hshow. unfold last_forecast. rewrite Hshow.
      rewrite groups_of_eq, fmap_last.
      destruct (list.last (group_keys (location_keys df))) as [k |] eqn:Hl.
      * cbn. apply Hgrp; [| done].
        rewrite last_lookup in Hl. by eapply list_elem_of_lookup_2.
      * exfalso. apply last_None in Hl.
        assert (Hlen0 : length (group_keys (location_keys df)) = 0%nat)
          by (by rewrite Hl).
        rewrite length_group_keys in Hlen0.
        apply length_zero_iff_nil in Hlen0.
        destruct (location_keys df) as [| k0 ks] eqn:Hks.
        -- simpl in Hk. destruct qs; [done | simpl in Hk; lia].
        -- assert (Hin : k0 ∈ remove_dups (k0 :: ks))
             by (apply elem_of_remove_dups; left).
           rewrite Hlen0 in Hin. by inversion Hin.
Qed.

End SeriesReady.

(** ** update_plot under the input contract *)

Section UpdatePlot.

Lemma update_plot_ok w r df :
  heap w !! r = Some df -> input_contract df ->
  (show_forecast (self w) = true -> dates_ascending df) ->
  exists qs mt w',
    (price ← getitem df "price"; astype_float price) = Ok (Num <$> qs) /\
    main_title df = Ok mt /\
    update_plot (Some r) w = (Ok tt, w') /\
    lines (ax (self w')) =
      series_lines (show_forecast (self w)) (accent (self w))
        (setitem df "price" (Num <$> qs)) /\
    title (ax (self w')) =
      (Lit nl :: mt) ++ stats_pieces qs ++
      (if show_forecast (self w)
       then match series_forecast (show_forecast (self w))
                    (setitem df "price" (Num <$> qs)) ≫= list.last with
            | Some x => forecast_pieces x
            | None => []
            end
       else []) /\
    legend (ax (self w')) =
      (if has_multiple (setitem df "price" (Num <$> qs)) || show_forecast (self w)
       then Some "lower right" else None) /\
    fig (self w') =
      (if has_multiple (setitem df "price" (Num <$> qs)) || show_forecast (self w)
       then BottomMargin (Q2Qc (2 # 10)) else TightLayout) /\
    series_ok (show_forecast (self w)) (setitem df "price" (Num <$> qs)) /\
    (show_forecast (self w) = true ->
     exists v x,
       series_forecast (show_forecast (self w))
         (setitem df "price" (Num <$> qs)) = Some v /\
       list.last v = Some x).
Proof.
  intros Hdf Hcontract Hasc.
  destruct (contract_price df Hcontract) as (qs & Hc & Hlenqs).
  destruct (main_title_ok df Hcontract) as [mt Hmt].
  destruct Hcontract as (Hwf & Hne & _ & Hhasdate & _ & _).
  destruct (has_column_true df _ Hhasdate) as [d Hd].
  set (df' := setitem df "price" (Num <$> qs)).
  set (show := show_forecast (self w)) in *.
  set (w2 := mkWorld (<[r := df']> (heap w))
               (set_ax blank_axes (set_current_data r (self w)))).
  assert (Hprice' : columns df' !! "price" = Some (Num <$> qs))
    by (unfold df', setitem; cbn [columns]; by rewrite lookup_insert_eq).
  assert (Hdate' : columns df' !! "date" = Some d)
    by (unfold df', setitem; cbn [columns]; by rewrite lookup_insert_ne).
  assert (Hlend : length d = length qs) by (by rewrite (Hwf _ _ Hd)).
  assert (Hqs : qs <> []).
  { intros ->. simpl in Hlenqs. by apply (nrows_nonzero df Hne). }
  assert (Hasc' : show = true ->
            exists ds, d = Date <$> ds /\
                       Forall (fun x => valid_date x = true) ds /\
                       Sorted date_le ds).
  { intros Hshow. destruct (Hasc Hshow) as (ds & Hds & Hv & Hs).
    exists ds. split; [congruence | done]. }
  destruct (series_ready df' qs d show Hprice' Hdate' Hlend
              (eq_sym Hlenqs) Hqs Hasc') as [Hser Hfv].
  assert (Hst := stats_text_ok df' qs show (series_forecast show df')
                   ltac:(unfold getitem; by rewrite Hprice') Hfv).
  destruct (draw_ok df' w2 mt _ ltac:(by unfold df'; rewrite main_title_setitem)
              Hser Hst) as (w3 & Hdraw & Hlines & Htitle & Hleg & Hfig & _).
  exists qs, mt, (canvas_draw w3).2.
  split; [done |]. split; [done |]. split.
  { rewrite (update_plot_coerce_ok w r df (Num <$> qs) Hdf Hne Hc).
    fold df' w2. unfold mbind, M_bind. by rewrite Hdraw. }
  cbn [canvas_draw modify_self snd self ax fig].
  rewrite Hlines, Htitle, Hleg, Hfig. by repeat split.
Qed.

End UpdatePlot.

(** ** How many lines, which stats *)

Section LinesAndStats.

Lemma location_keys_setitem df l :
  location_keys (setitem df "price" l) = location_keys df.
Proof.
  unfold location_keys. rewrite location_cols_setitem.
  unfold location_cols_of, getitem, setitem. cbn [columns nrows].
  destruct (has_column df "stateabbr"); [| done].
  destruct (has_column df "city"); [destruct (has_column df "zipcode") |];
    cbn [rmapM]; by rewrite !lookup_insert_ne by done.
Qed.

Lemma count_whole_lines show acc df :
  group_ok show ([], df) ->
  count_lines is_actual (whole_lines show acc df) = 1%nat /\
  count_lines is_forecast (whole_lines show acc df) = (if show then 1 else 0)%nat.
Proof.
  intros (Hd & Hp & Hfc). cbn [snd] in *. unfold whole_lines, count_lines.
  destruct (getitem df "date") as [d |] eqn:Ed; [| done].
  destruct (getitem df "price") as [p |] eqn:Ep; [| done].
  destruct show; [| done].
  assert (Hg : group_forecast df = calculate_forecast d p 6).
  { unfold group_forecast, mbind, result_bind. by rewrite Ed, Ep. }
  rewrite Hg in Hfc. specialize (Hfc eq_refl).
  by destruct (calculate_forecast d p 6).
Qed.

Lemma frame_plain_contract : input_contract frame_plain /\ dates_ascending frame_plain.
Proof.
  split.
  - split; [apply wf_frameb_correct; vm_compute; reflexivity |].
    split; [reflexivity |]. split; [vm_compute; reflexivity |].
    split; [vm_compute; reflexivity |]. split.
    + exists [Num (of_Z 3); Num (of_Z 3)]. split; [reflexivity | by intros s].
    + intros H. vm_compute in H. discriminate H.
  - exists [mkDate 2020 1 31; mkDate 2020 2 29]. split; [reflexivity |].
    split; [by repeat constructor |].
    repeat constructor. vm_compute. intros H. discriminate H.
Qed.

Lemma frame_states_contract : input_contract frame_states /\ dates_ascending frame_states.
Proof.
  split.
  - split; [apply wf_frameb_correct; vm_compute; reflexivity |].
    split; [reflexivity |]. split; [vm_compute; reflexivity |].
    split; [vm_compute; reflexivity |]. split.
    + exists [Num (of_Z 3); Num (of_Z 3); Num (of_Z 3)].
      split; [reflexivity | by intros s].
    + intros H. vm_compute in H. discriminate H.
  - exists [mkDate 2020 1 31; mkDate 2020 1 31; mkDate 2020 2 29].
    split; [reflexivity |]. split; [by repeat constructor |].
    repeat constructor; vm_compute; intros H; discriminate H.
Qed.






(** Groups come by increasing key, not by first appearance: TX is the key
    of the first row, AZ the first group. *)
Example groupby_sorted_not_first_appearance :
  list.head (location_keys frame_states) = Some [Str "TX"] /\
  list.head (groups_of frame_states).*1 = Some [Str "AZ"].
Proof. split; vm_compute; reflexivity. Qed.

Lemma current_data_invariant_witness :
  exists df,
    heap (run_ops [UpdatePlot (Some 0%nat)]
            (fresh (<[0%nat := frame_abc12]> ∅))).2 !! 0%nat = Some df /\
    empty df = false /\
    (Forall (fun res => raised_in_coercion res = false)
       (run_ops [UpdatePlot (Some 0%nat)]
          (fresh (<[0%nat := frame_abc12]> ∅))).1 ->
     price_coercible df = true).
Proof.
  apply (current_data_invariant [UpdatePlot (Some 0%nat)]
           (fresh (<[0%nat := frame_abc12]> ∅)) 0%nat).
  - reflexivity.
  - vm_compute. reflexivity.
Defined.

End LinesAndStats.

(** ** The whole instance after update_plot *)

Section World.

Lemma draw_world df w mt st :
  main_title df = Ok mt ->
  series_ok (show_forecast (self w)) df ->
  stats_text df (show_forecast (self w))
    (series_forecast (show_forecast (self w)) df) = Ok st ->
  draw df w =
    (Ok tt,
     mkWorld (heap w)
       (mkChart
          (mkAxes
             (lines (ax (self w)) ++
              series_lines (show_forecast (self w)) (accent (self w)) df)
             (texts (ax (self w))) ((Lit nl :: mt) ++ st)
             "Date" "Average Home Value ($)"
             (if has_multiple df || show_forecast (self w)
              then Some "lower right" else legend (ax (self w)))
             (Some ("%Y-%m-%d", 45)) true true)
          (canvas (self w))
          (drawn_layout (show_forecast (self w)) df)
          (accent (self w)) (show_forecast (self w)) (current_data (self w)))).
Proof.
  intros Hmt Hser Hst.
  unfold draw, mbind, M_bind, lift. rewrite Hmt.
  rewrite (plot_series_ok df w Hser).
  unfold ax_set_title, ax_set_labels, ax_cosmetics, ax_legend, fig_layout,
    modify_ax, modify_self, get_self, drawn_layout.
  cbn [self add_lines set_ax set_fig show_forecast ax fst snd heap title lines
       texts xlabel ylabel legend date_axis currency_axis grid accent canvas fig
       current_data].
  rewrite Hst.
  cbn [self add_lines set_ax set_fig show_forecast ax fst snd heap title lines
       texts xlabel ylabel legend date_axis currency_axis grid accent canvas fig
       current_data].
  by destruct (has_multiple df || show_forecast (self w)).
Qed.

Lemma update_plot_world w r df :
  heap w !! r = Some df -> input_contract df ->
  (show_forecast (self w) = true -> dates_ascending df) ->
  exists qs mt,
    (price ← getitem df "price"; astype_float price) = Ok (Num <$> qs) /\
    length qs = nrows df /\
    main_title df = Ok mt /\
    update_plot (Some r) w =
      (Ok tt,
       mkWorld (<[r := setitem df "price" (Num <$> qs)]> (heap w))
         (mkChart
            (drawn_axes (show_forecast (self w)) (accent (self w))
               (setitem df "price" (Num <$> qs)) mt qs)
            (S (canvas (self w)))
            (drawn_layout (show_forecast (self w))
               (setitem df "price" (Num <$> qs)))
            (accent (self w)) (show_forecast (self w)) (Some r))).
Proof.
  intros Hdf Hcontract Hasc.
  destruct (contract_price df Hcontract) as (qs & Hc & Hlenqs).
  destruct (main_title_ok df Hcontract) as [mt Hmt].
  destruct Hcontract as (Hwf & Hne & _ & Hhasdate & _ & _).
  destruct (has_column_true df _ Hhasdate) as [d Hd].
  set (df' := setitem df "price" (Num <$> qs)).
  set (show := show_forecast (self w)) in *.
  set (w2 := mkWorld (<[r := df']> (heap w))
               (set_ax blank_axes (set_current_data r (self w)))).
  assert (Hprice' : columns df' !! "price" = Some (Num <$> qs))
    by (unfold df', setitem; cbn [columns]; by rewrite lookup_insert_eq).
  assert (Hdate' : columns df' !! "date" = Some d)
    by (unfold df', setitem; cbn [columns]; by rewrite lookup_insert_ne).
  assert (Hlend : length d = length qs) by (by rewrite (Hwf _ _ Hd)).
  assert (Hqs : qs <> []).
  { intros ->. simpl in Hlenqs. by apply (nrows_nonzero df Hne). }
  assert (Hasc' : show = true ->
            exists ds, d = Date <$> ds /\
                       Forall (fun x => valid_date x = true) ds /\
                       Sorted date_le ds).
  { intros Hshow. destruct (Hasc Hshow) as (ds & Hds & Hv & Hs).
    exists ds. split; [congruence | done]. }
  destruct (series_ready df' qs d show Hprice' Hdate' Hlend
              (eq_sym Hlenqs) Hqs Hasc') as [Hser Hfv].
  assert (Hst := stats_text_ok df' qs show (series_forecast show df')
                   ltac:(unfold getitem; by rewrite Hprice') Hfv).
  exists qs, mt.
  split; [done |]. split; [done |]. split; [done |].
  rewrite (update_plot_coerce_ok w r df (Num <$> qs) Hdf Hne Hc).
  fold df' w2. unfold mbind, M_bind.
  rewrite (draw_world df' w2 mt _
             ltac:(by unfold df'; rewrite main_title_setitem) Hser Hst).
  reflexivity.
Qed.

End World.

(** ** Drawing the same dataset again *)

Section Rerender.

Lemma setitem_setitem df c l : setitem (setitem df c l) c l = setitem df c l.
Proof. unfold setitem. cbn [nrows columns]. by rewrite insert_insert_eq. Qed.

Lemma has_column_setitem_ne df c l :
  c <> "price" -> has_column (setitem df "price" l) c = has_column df c.
Proof.
  intros Hc. unfold has_column, setitem. cbn [columns].
  by rewrite lookup_insert_ne.
Qed.

Lemma coerced_contract df qs :
  input_contract df ->
  (price ← getitem df "price"; astype_float price) = Ok (Num <$> qs) ->
  length qs = nrows df ->
  input_contract (setitem df "price" (Num <$> qs)) /\
  (price ← getitem (setitem df "price" (Num <$> qs)) "price"; astype_float price)
    = Ok (Num <$> qs) /\
  (dates_ascending df -> dates_ascending (setitem df "price" (Num <$> qs))).
Proof.
  intros (Hwf & Hne & Hpc & Hdate & (z & Hz & Hzs) & Hcity) Hc Hlen.
  destruct (coerced_frame df _ Hne Hc) as (Hne' & Hpc' & Hget & _).
  split; [| split].
  - split; [| split; [done | split; [done | split; [| split]]]].
    + intros c l. unfold setitem. cbn [columns nrows].
      destruct (decide (c = "price")) as [-> | Hcp].
      * rewrite lookup_insert_eq. intros [= <-]. by rewrite length_fmap.
      * rewrite lookup_insert_ne by done. apply Hwf.
    + by rewrite has_column_setitem_ne.
    + exists z. split; [| done]. unfold setitem. cbn [columns].
      by rewrite lookup_insert_ne.
    + rewrite !has_column_setitem_ne by done. exact Hcity.
  - unfold mbind, result_bind. rewrite Hget. cbn [rbind].
    apply astype_float_idem.
  - intros (ds & Hds & Hv & Hs). exists ds. split; [| done].
    unfold setitem. cbn [columns]. by rewrite lookup_insert_ne.
Qed.

Lemma fmap_Num_inj (qs qs' : list Qc) : Num <$> qs = Num <$> qs' -> qs = qs'.
Proof.
  revert qs'. induction qs as [| q qs IH]; intros [| q' qs'] H; try done.
  csimpl in H. injection H as -> H. f_equal. by apply IH.
Qed.

(** Rendering a frame that is already in coerced form: the store is left
    as it is. *)
Lemma update_plot_coerced v r df qs mt :
  input_contract df ->
  (price ← getitem df "price"; astype_float price) = Ok (Num <$> qs) ->
  length qs = nrows df ->
  main_title df = Ok mt ->
  heap v !! r = Some (setitem df "price" (Num <$> qs)) ->
  (show_forecast (self v) = true -> dates_ascending df) ->
  update_plot (Some r) v =
    (Ok tt,
     mkWorld (heap v)
       (mkChart
          (drawn_axes (show_forecast (self v)) (accent (self v))
             (setitem df "price" (Num <$> qs)) mt qs)
          (S (canvas (self v)))
          (drawn_layout (show_forecast (self v))
             (setitem df "price" (Num <$> qs)))
          (accent (self v)) (show_forecast (self v)) (Some r))).
Proof.
  intros Hcontract Hc Hlen Hmt Hv Hasc.
  destruct (coerced_contract df qs Hcontract Hc Hlen) as (Hcontract' & Hc' & Hasc').
  destruct (update_plot_world v r _ Hv Hcontract' (fun H => Hasc' (Hasc H)))
    as (qs' & mt' & Hc2 & _ & Hmt2 & Hup).
  rewrite Hc' in Hc2. injection Hc2 as Hqs. apply fmap_Num_inj in Hqs as <-.
  rewrite main_title_setitem, Hmt in Hmt2. injection Hmt2 as <-.
  rewrite Hup, setitem_setitem. by rewrite insert_id.
Qed.





End Rerender.

(** ** The methods that only write the surface *)

Section SurfaceOps.

Lemma run_surface_op o w :
  surface_op o = true ->
  run_op o w = (Ok tt, flushed 1 (with_axes (surface_after o (ax (self w))) w)).
Proof. by destruct o. Qed.

Lemma remove_dups_nonempty {A} `{EqDecision A} (l : list A) :
  l <> [] -> remove_dups l <> [].
Proof.
  destruct l as [| x l]; [done |]. intros _ H.
  assert (Hin : x ∈ remove_dups (x :: l)) by (apply elem_of_remove_dups; left).
  rewrite H in Hin. by inversion Hin.
Qed.

Lemma series_lines_nonempty show acc df :
  series_ok show df -> nrows df <> 0%nat -> series_lines show acc df <> [].
Proof.
  unfold series_ok, series_lines. intros Hser Hn Hnil.
  assert (Hcount : count_lines is_actual (series_lines show acc df) = 0%nat).
  { unfold series_lines. by rewrite Hnil. }
  unfold series_lines in Hcount.
  destruct (bool_decide (location_cols_of df = [])) eqn:Hloc.
  - rewrite (proj1 (count_whole_lines show acc df Hser)) in Hcount. done.
  - destruct Hser as [_ Hall].
    rewrite (proj1 (count_group_lines show _ Hall)), length_groups_of in Hcount.
    apply bool_decide_eq_false in Hloc.
    apply length_zero_iff_nil in Hcount.
    apply remove_dups_nonempty in Hcount; [done |].
    intros Hk. apply (f_equal length) in Hk.
    rewrite length_location_keys in Hk by done. done.
Qed.



(** X4: [setup_initial_plot] never clears: called [n] times in a row it returns
    normally each time, keeps every line on the axes and adds its text [n]
    times, flushing the canvas once per call. *)
Theorem setup_initial_plot_stacks n w :
  let run := run_ops (replicate n SetupInitialPlot) w in
  run.1 = replicate n (Ok tt) /\
  lines (ax (self run.2)) = lines (ax (self w)) /\
  texts (ax (self run.2)) =
    texts (ax (self w)) ++
    replicate n (placeholder "Select filters and click Update Viz") /\
  canvas (self run.2) = (n + canvas (self w))%nat /\
  same_data w run.2.
Proof.
  cbv zeta. revert w. induction n as [| n IH]; intros w.
  - cbn. rewrite app_nil_r. by repeat split.
  - cbn [replicate]. rewrite run_ops_cons. cbn [fst snd].
    destruct (IH (run_op SetupInitialPlot w).2) as (Hr & Hl & Ht & Hc & Hd).
    rewrite Hr, Hl, Ht, Hc.
    rewrite (run_surface_op SetupInitialPlot w eq_refl) in Hd |- *.
    cbn [fst snd flushed with_axes self ax set_ax surface_after titled_axes
         lines texts canvas heap] in Hd |- *.
    rewrite <- app_assoc. cbn [app].
    split; [done |]. split; [done |]. split; [done |]. split; [lia |].
    exact Hd.
Qed.

End SurfaceOps.

(** ** Flushes, layout and flag, whatever the outcome *)

Section Outcomes.

#[local] Instance same_canvas_fig_preorder : PreOrder same_canvas_fig.
Proof.
  split.
  - intros w. by split.
  - intros w1 w2 w3 [H1 H2] [K1 K2]. split; congruence.
Qed.

Lemma keeps_modify_ax f : preserves same_canvas_fig (modify_ax f).
Proof. intros w. by split. Qed.

Lemma keeps_plot_series df : preserves same_canvas_fig (plot_series df).
Proof.
  unfold plot_series, plot_whole, ax_plot.
  destruct (bool_decide (location_cols_of df = [])).
  - repeat first
      [ apply preserves_bind; [typeclasses eauto | | intros ?]
      | apply keeps_modify_ax
      | apply preserves_get_self; typeclasses eauto
      | apply preserves_lift; typeclasses eauto
      | apply preserves_ret; typeclasses eauto
      | match goal with |- preserves _ (if ?b then _ else _) => destruct b end ].
  - apply preserves_bind; [typeclasses eauto | apply preserves_lift; typeclasses eauto |].
    intros gs. apply preserves_bind; [typeclasses eauto | |].
    + apply preserves_foldM; [typeclasses eauto |]. intros fv kg.
      unfold plot_group, ax_plot.
      repeat first
        [ apply preserves_bind; [typeclasses eauto | | intros ?]
        | apply keeps_modify_ax
        | apply preserves_get_self; typeclasses eauto
        | apply preserves_lift; typeclasses eauto
        | apply preserves_ret; typeclasses eauto
        | match goal with |- preserves _ (if ?b then _ else _) => destruct b end ].
    + intros fv. apply preserves_ret; typeclasses eauto.
Qed.

(** [draw] leaves the flush count alone, and the layout too unless it
    reaches its last statement. *)
Lemma draw_outcome df w :
  canvas (self (draw df w).2) = canvas (self w) /\
  (is_ok (draw df w).1 = false -> fig (self (draw df w).2) = fig (self w)) /\
  heap (draw df w).2 = heap w.
Proof.
  pose proof (keeps_plot_series df w) as [Hc Hf].
  pose proof (surface_only_plot_series df w) as (Hh & _).
  unfold draw, mbind, M_bind, lift.
  destruct (main_title df) as [mt |]; [| by repeat split].
  destruct (plot_series df w) as [[drawn | e] w1]; [| by repeat split].
  cbn [snd] in Hc, Hf, Hh.
  unfold ax_set_title, ax_set_labels, ax_cosmetics, ax_legend, fig_layout,
    modify_ax, modify_self, get_self.
  cbn [self set_ax set_fig show_forecast ax fst snd heap title lines
       texts xlabel ylabel legend date_axis currency_axis grid accent canvas fig
       current_data].
  destruct (stats_text df (show_forecast (self w1)) drawn.2) as [st |];
    [| by repeat split].
  cbn [self set_ax set_fig show_forecast ax fst snd heap title lines
       texts xlabel ylabel legend date_axis currency_axis grid accent canvas fig
       current_data].
  destruct (drawn.1 || show_forecast (self w1)); by repeat split.
Qed.

(** X5: An [update_plot] that returns has flushed the canvas exactly once; one
    that raises has not flushed it and has not touched the figure layout:
    the exception leaves on screen what was there before.  In no case does
    the accent colour change. *)
Theorem update_plot_flushes_once data w :
  canvas (self (update_plot data w).2) =
    (if is_ok (update_plot data w).1 then S (canvas (self w)) else canvas (self w)) /\
  (is_ok (update_plot data w).1 = false ->
   fig (self (update_plot data w).2) = fig (self w)) /\
  accent (self (update_plot data w).2) = accent (self w).
Proof.
  assert (Habs : absent_or_empty w data ->
    canvas (self (update_plot data w).2) =
      (if is_ok (update_plot data w).1 then S (canvas (self w))
       else canvas (self w)) /\
    (is_ok (update_plot data w).1 = false ->
     fig (self (update_plot data w).2) = fig (self w)) /\
    accent (self (update_plot data w).2) = accent (self w)).
  { intros H. destruct (update_plot_absent_or_empty w data H) as (-> & _).
    by repeat split. }
  destruct data as [r |]; [| by apply Habs].
  destruct (heap w !! r) as [df |] eqn:Hdf.
  2: { rewrite (update_plot_dangling w r Hdf). by repeat split. }
  destruct (empty df) eqn:Hne; [apply Habs; by exists df |].
  destruct (price ← getitem df "price"; astype_float price) as [price' | e] eqn:Hc.
  2: { rewrite (update_plot_coerce_fail w r df e Hdf Hne Hc). by repeat split. }
  rewrite (update_plot_coerce_ok w r df price' Hdf Hne Hc).
  match goal with |- context [(_ ;; canvas_draw) ?x] => set (w2 := x) end.
  destruct (draw_outcome (setitem df "price" price') w2) as (Hcv & Hfig & _).
  pose proof (surface_only_draw (setitem df "price" price') w2) as (_ & _ & _ & Hacc).
  unfold mbind, M_bind.
  destruct (draw (setitem df "price" price') w2) as [[[] | e] w3].
  - cbn [fst snd is_ok canvas_draw modify_self self canvas fig accent] in *.
    rewrite Hcv, Hacc. by repeat split.
  - cbn [fst snd is_ok] in *. rewrite Hcv, Hacc. split; [done |].
    split; [| done]. intros _. by rewrite Hfig.
Qed.

End Outcomes.

(** ** Runs of operations *)

Section RunInvariants.

Lemma run_op_flag o w :
  show_forecast (self (run_op o w).2) =
    xorb (is_toggle o) (show_forecast (self w)).
Proof.
  destruct o as [| data | | message |]; cbn [run_op is_toggle xorb].
  - destruct (toggle_trend_line_flips w) as (-> & _).
    by destruct (show_forecast (self w)).
  - apply update_plot_same_flag.
  - apply surface_only_setup_initial_plot.
  - apply surface_only_show_error.
  - apply surface_only_clear_plot.
Qed.

(** X6: The flag of an instance counts the calls of [toggle_trend_line]: after
    any run of operations on a new instance, whatever they raised, the
    forecast is on exactly when the run holds an odd number of them. *)
Theorem show_forecast_parity os h a c f acc :
  show_forecast (self (run_ops os (mkWorld h (init a c f acc))).2) =
    Nat.odd (toggles os).
Proof.
  assert (H : forall w,
            show_forecast (self (run_ops os w).2) =
              xorb (Nat.odd (toggles os)) (show_forecast (self w))).
  { induction os as [| o os IH]; intros w.
    - cbn. by destruct (show_forecast (self w)).
    - rewrite run_ops_cons. cbn [snd]. rewrite IH, run_op_flag.
      unfold toggles. cbn [List.filter].
      destruct (is_toggle o); cbn [length xorb].
      + rewrite Nat.odd_succ, <- Nat.negb_odd.
        by destruct (Nat.odd _), (show_forecast (self w)).
      + done. }
  rewrite H. cbn [init self show_forecast]. by rewrite xorb_false_r.
Qed.

(** X7: [update_plot] starts from cleared axes: neither its outcome nor the
    instance it leaves depends on what the axes held before, and the same
    goes for the redraw of [toggle_trend_line]. *)
Theorem update_plot_forgets_surface data w a :
  in_store w data ->
  update_plot data (with_axes a w) = update_plot data w /\
  (in_store w (current_data (self w)) ->
   is_Some (current_data (self w)) ->
   toggle_trend_line (with_axes a w) = toggle_trend_line w).
Proof.
  assert (Hup : forall d v b, in_store v d ->
            update_plot d (with_axes b v) = update_plot d v).
  { intros d v b Hin.
    assert (Habs : absent_or_empty v d ->
              update_plot d (with_axes b v) = update_plot d v).
    { intros H.
      destruct (update_plot_absent_or_empty v d H) as (-> & _).
      by destruct (update_plot_absent_or_empty (with_axes b v) d
                     ltac:(by destruct d)) as (-> & _). }
    destruct d as [r |]; [| by apply Habs].
    destruct Hin as [df Hdf].
    destruct (empty df) eqn:Hne; [apply Habs; by exists df |].
    rewrite (update_plot_nonempty v r df Hdf Hne).
    rewrite (update_plot_nonempty (with_axes b v) r df Hdf Hne).
    unfold mbind, M_bind.
    rewrite (render_eq v r df Hdf), (render_eq (with_axes b v) r df Hdf).
    reflexivity. }
  intros Hin. split; [by apply Hup |].
  intros Hcur [r Hr].
  destruct (toggle_trend_line_flips w) as (_ & _ & Ht).
  destruct (toggle_trend_line_flips (with_axes a w)) as (_ & _ & Ht').
  rewrite (Ht r Hr), (Ht' r Hr).
  rewrite Hr in Hcur.
  exact (Hup (Some r)
           (mkWorld (heap w)
              (set_show_forecast (negb (show_forecast (self w))) (self w)))
           a Hcur).
Qed.

Lemma update_plot_forgets_surface_witness :
  update_plot (Some 0%nat)
    (with_axes initial_axes (fresh (<[0%nat := frame_states]> ∅))) =
  update_plot (Some 0%nat) (fresh (<[0%nat := frame_states]> ∅)).
Proof.
  apply (update_plot_forgets_surface (Some 0%nat)
           (fresh (<[0%nat := frame_states]> ∅)) initial_axes).
  by exists frame_states.
Defined.

Lemma run_op_no_data o w :
  current_data (self w) = None -> lines (ax (self w)) = [] ->
  brings_no_data w o ->
  (run_op o w).1 = Ok tt /\
  lines (ax (self (run_op o w).2)) = [] /\
  current_data (self (run_op o w).2) = None /\
  heap (run_op o w).2 = heap w.
Proof.
  intros Hcur Hlines Hno.
  destruct o as [| data | | message |]; cbn [brings_no_data] in Hno.
  - change (run_op ToggleTrendLine w) with (toggle_trend_line w).
    destruct (toggle_trend_line_flips w) as (_ & -> & _); [done |].
    by repeat split.
  - change (run_op (UpdatePlot data) w) with (update_plot data w).
    destruct (update_plot_absent_or_empty w data Hno) as (-> & _).
    by repeat split.
  - rewrite (run_surface_op SetupInitialPlot w eq_refl). by repeat split.
  - rewrite (run_surface_op (ShowError message) w eq_refl). by repeat split.
  - rewrite (run_surface_op ClearPlot w eq_refl). by repeat split.
Qed.

(** X8: Until [update_plot] is handed a non-empty dataset, no operation raises
    and no line is ever drawn: the axes stay without lines, [current_data]
    stays unset and the store is not written. *)
Theorem no_data_no_lines os w0 :
  current_data (self w0) = None -> lines (ax (self w0)) = [] ->
  Forall (brings_no_data w0) os ->
  (run_ops os w0).1 = replicate (length os) (Ok tt) /\
  lines (ax (self (run_ops os w0).2)) = [] /\
  current_data (self (run_ops os w0).2) = None /\
  heap (run_ops os w0).2 = heap w0.
Proof.
  revert w0. induction os as [| o os IH]; intros w0 Hcur Hlines Hall.
  - by repeat split.
  - inversion Hall as [| ? ? Ho Hos]; subst.
    destruct (run_op_no_data o w0 Hcur Hlines Ho) as (Hr & Hl & Hc & Hh).
    assert (Hos' : Forall (brings_no_data (run_op o w0).2) os).
    { eapply Forall_impl; [| exact Hos]. intros [| [r |] | | |]; try done.
      cbn [brings_no_data absent_or_empty]. by rewrite Hh. }
    destruct (IH _ Hc Hl Hos') as (Hr' & Hl' & Hc' & Hh').
    rewrite run_ops_cons. cbn [fst snd length replicate].
    rewrite Hr, Hr', Hl', Hc', Hh', Hh. by repeat split.
Qed.

Lemma no_data_no_lines_witness :
  (run_ops [ToggleTrendLine; UpdatePlot None; ShowError "oops"; ClearPlot]
     (fresh ∅)).1 = replicate 4 (Ok tt) /\
  lines (ax (self (run_ops [ToggleTrendLine; UpdatePlot None; ShowError "oops";
                            ClearPlot] (fresh ∅)).2)) = [].
Proof.
  destruct (no_data_no_lines
              [ToggleTrendLine; UpdatePlot None; ShowError "oops"; ClearPlot]
              (fresh ∅) eq_refl eq_refl) as (Hr & Hl & _).
  - by repeat constructor.
  - exact (conj Hr Hl).
Defined.

End RunInvariants.

(** ** What the operations do to the caller's datasets *)

Section Store.

Lemma coerce_inv df l :
  (price ← getitem df "price"; astype_float price) = Ok l ->
  exists price, getitem df "price" = Ok price /\ astype_float price = Ok l.
Proof.
  unfold mbind, result_bind. destruct (getitem df "price") as [price |]; [| done].
  cbn [rbind]. eauto.
Qed.

Lemma coerced_from_trans df0 df1 df2 :
  coerced_from df0 df1 -> coerced_from df1 df2 -> coerced_from df0 df2.
Proof.
  intros [-> | (l & Hl & ->)]; [done |].
  intros [-> | (l' & Hl' & ->)]; [right; eauto |].
  right. exists l. split; [done |].
  destruct (coerce_inv _ _ Hl) as (price & _ & Hast).
  destruct (astype_float_nums _ _ Hast) as [qs ->].
  destruct (coerce_inv _ _ Hl') as (price' & Hget' & Hast').
  unfold getitem, setitem in Hget'. cbn [columns] in Hget'.
  rewrite lookup_insert_eq in Hget'. injection Hget' as <-.
  rewrite astype_float_idem in Hast'. injection Hast' as <-.
  apply setitem_setitem.
Qed.

#[local] Instance store_coerced_preorder : PreOrder store_coerced.
Proof.
  split.
  - intros w r. destruct (heap w !! r) as [df |]; [| done].
    exists df. split; [done | by left].
  - intros w1 w2 w3 H12 H23 r. specialize (H12 r). specialize (H23 r).
    destruct (heap w1 !! r) as [df1 |].
    + destruct H12 as (df2 & Hdf2 & Hc12). rewrite Hdf2 in H23.
      destruct H23 as (df3 & Hdf3 & Hc23). exists df3.
      split; [done |]. by eapply coerced_from_trans.
    + by rewrite H12 in H23.
Qed.

Lemma same_heap_store_coerced w w' : heap w' = heap w -> store_coerced w w'.
Proof.
  intros Hh r. rewrite Hh. destruct (heap w !! r) as [df |]; [| done].
  exists df. split; [done | by left].
Qed.

Lemma update_plot_store_coerced data : preserves store_coerced (update_plot data).
Proof.
  intros w. pose proof (update_plot_store w data) as H. cbv zeta in H.
  destruct data as [r |]; [| apply same_heap_store_coerced, H].
  destruct (heap w !! r) as [df |] eqn:Hdf;
    [| apply same_heap_store_coerced, H].
  destruct (empty df); [apply same_heap_store_coerced, H |].
  destruct H as [_ H].
  destruct (price ← getitem df "price"; astype_float price) as [price' |] eqn:Hc;
    [| apply same_heap_store_coerced, H].
  intros r'. rewrite H. destruct (decide (r' = r)) as [-> | Hr].
  - rewrite Hdf, lookup_insert_eq. eexists. split; [done |]. right. eauto.
  - rewrite lookup_insert_ne by done.
    destruct (heap w !! r') as [df' |]; [| done].
    exists df'. split; [done | by left].
Qed.

Lemma run_op_store_coerced o : preserves store_coerced (run_op o).
Proof.
  destruct o as [| data | | message |]; cbn [run_op].
  - intros w. destruct (toggle_trend_line_flips w) as (_ & Hnone & Hsome).
    destruct (current_data (self w)) as [r |] eqn:Hcur.
    + rewrite (Hsome r eq_refl).
      etransitivity; [| apply (update_plot_store_coerced (Some r))].
      by apply same_heap_store_coerced.
    + rewrite (Hnone eq_refl). by apply same_heap_store_coerced.
  - apply update_plot_store_coerced.
  - intros w. apply same_heap_store_coerced, surface_only_setup_initial_plot.
  - intros w. apply same_heap_store_coerced, surface_only_show_error.
  - intros w. apply same_heap_store_coerced, surface_only_clear_plot.
Qed.

Lemma coerced_from_columns df0 df :
  coerced_from df0 df ->
  nrows df = nrows df0 /\
  forall c, c <> "price" -> columns df !! c = columns df0 !! c.
Proof.
  intros [-> | (l & _ & ->)]; [done |]. split; [done |].
  intros c Hc. unfold setitem. cbn [columns]. by rewrite lookup_insert_ne.
Qed.

(** X9: Whatever operations are run and whatever they raise, the store keeps
    the datasets it had, and each is as the caller handed it or differs by
    its price column only, coerced to floats: no row and no other column is
    ever written, no dataset is added or dropped. *)
Theorem datasets_only_coerced os w0 r :
  match heap w0 !! r with
  | None => heap (run_ops os w0).2 !! r = None
  | Some df0 =>
      exists df,
        heap (run_ops os w0).2 !! r = Some df /\
        coerced_from df0 df /\
        nrows df = nrows df0 /\
        forall c, c <> "price" -> columns df !! c = columns df0 !! c
  end.
Proof.
  assert (H : store_coerced w0 (run_ops os w0).2).
  { revert w0. induction os as [| o os IH]; intros w0.
    - reflexivity.
    - rewrite run_ops_cons. cbn [snd].
      etransitivity; [apply run_op_store_coerced | apply IH]. }
  specialize (H r). destruct (heap w0 !! r) as [df0 |]; [| done].
  destruct H as (df & Hdf & Hc). exists df.
  split; [done |]. split; [done |]. by apply coerced_from_columns.
Qed.

End Store.

(** ** A dataset that cannot be drawn *)

Section Failing.

Lemma update_plot_fails_early v r d e :
  heap v !! r = Some d -> empty d = false -> fails_early d e ->
  (update_plot (Some r) v).1 = Raise e /\
  current_data (self (update_plot (Some r) v).2) = Some r /\
  canvas (self (update_plot (Some r) v).2) = canvas (self v) /\
  show_forecast (self (update_plot (Some r) v).2) = show_forecast (self v) /\
  exists d', heap (update_plot (Some r) v).2 !! r = Some d' /\
             empty d' = false /\ fails_early d' e.
Proof.
  intros Hd Hne [Hc | [Hpc Hmt]].
  - rewrite (update_plot_coerce_fail v r d e Hd Hne Hc). cbn [fst snd].
    repeat split; try done. exists d. repeat split; try done. by left.
  - unfold price_coercible in Hpc.
    destruct (price ← getitem d "price"; astype_float price)
      as [price' |] eqn:Hc; [| done].
    rewrite (update_plot_coerce_ok v r d price' Hd Hne Hc).
    unfold mbind, M_bind.
    rewrite (draw_title_raises (setitem d "price" price') _ e)
      by (by rewrite main_title_setitem).
    cbn [fst snd]. repeat split; try done.
    destruct (coerced_frame d price' Hne Hc) as (Hne' & Hpc' & _).
    exists (setitem d "price" price').
    split; [cbn [heap]; by rewrite lookup_insert_eq |].
    split; [done |]. right. split; [done |]. by rewrite main_title_setitem.
Qed.

Lemma toggles_keep_failing r e n :
  forall v,
    current_data (self v) = Some r ->
    (exists d, heap v !! r = Some d /\ empty d = false /\ fails_early d e) ->
    (run_ops (replicate n ToggleTrendLine) v).1 = replicate n (Raise e) /\
    show_forecast (self (run_ops (replicate n ToggleTrendLine) v).2) =
      xorb (Nat.odd n) (show_forecast (self v)) /\
    canvas (self (run_ops (replicate n ToggleTrendLine) v).2) = canvas (self v).
Proof.
  induction n as [| n IH]; intros v Hcur (d & Hd & Hne & Hfail).
  - cbn. by destruct (show_forecast (self v)).
  - cbn [replicate]. rewrite run_ops_cons. cbn [fst snd].
    change (run_op ToggleTrendLine v) with (toggle_trend_line v).
    destruct (toggle_trend_line_flips v) as (_ & _ & Ht).
    rewrite (Ht r Hcur).
    match goal with |- context [update_plot (Some r) ?x] => set (v1 := x) end.
    destruct (update_plot_fails_early v1 r d e Hd Hne Hfail)
      as (Hres & Hcur' & Hcv & Hshow & Hd').
    destruct (IH _ Hcur' Hd') as (IHres & IHshow & IHcv).
    rewrite Hres, IHres, IHshow, IHcv, Hshow, Hcv.
    unfold v1. cbn [self show_forecast set_show_forecast canvas].
    split; [done |]. split; [| done].
    rewrite Nat.odd_succ, <- Nat.negb_odd.
    by destruct (Nat.odd n), (show_forecast (self v)).
Qed.

(** X10: A non-empty dataset on which line 75 or the title raises is stored as
    [current_data] all the same, so it keeps failing: every later
    [toggle_trend_line] flips the flag and raises the same exception, and
    the canvas is never flushed. *)
Theorem failed_update_keeps_failing w r df e n :
  heap w !! r = Some df -> empty df = false -> fails_early df e ->
  let w1 := (update_plot (Some r) w).2 in
  let run := run_ops (replicate n ToggleTrendLine) w1 in
  (update_plot (Some r) w).1 = Raise e /\
  current_data (self w1) = Some r /\
  run.1 = replicate n (Raise e) /\
  show_forecast (self run.2) = xorb (Nat.odd n) (show_forecast (self w)) /\
  canvas (self run.2) = canvas (self w).
Proof.
  intros Hdf Hne Hfail. cbv zeta.
  destruct (update_plot_fails_early w r df e Hdf Hne Hfail)
    as (Hres & Hcur & Hcv & Hshow & Hd').
  destruct (toggles_keep_failing r e n _ Hcur Hd') as (Hr & Hs & Hc).
  rewrite Hr, Hs, Hc, Hshow, Hcv. by repeat split.
Qed.

Lemma failed_update_keeps_failing_witness :
  let w1 := (update_plot (Some 0%nat) (fresh (<[0%nat := frame_abc]> ∅))).2 in
  (run_ops [ToggleTrendLine; ToggleTrendLine] w1).1 =
    [Raise (ValueError "could not convert string to float");
     Raise (ValueError "could not convert string to float")] /\
  canvas (self (run_ops [ToggleTrendLine; ToggleTrendLine] w1).2) = 0%nat.
Proof.
  assert (Hh : heap (fresh (<[0%nat := frame_abc]> ∅)) !! 0%nat = Some frame_abc)
    by reflexivity.
  assert (Hne : empty frame_abc = false) by reflexivity.
  assert (Hf : fails_early frame_abc
                 (ValueError "could not convert string to float"))
    by (left; vm_compute; reflexivity).
  pose proof (failed_update_keeps_failing _ 0%nat frame_abc _ 2 Hh Hne Hf) as H.
  cbv zeta in H. destruct H as (_ & _ & Hr & _ & Hc).
  exact (conj Hr Hc).
Defined.

End Failing.

(** ** The fit of a series that lies on a line *)

Section LinearData.

Lemma of_Z_add x y : of_Z (x + y) = (of_Z x + of_Z y)%Qc.
Proof.
  unfold of_Z. apply Qc_is_canon. cbn [this Q2Qc Qcplus].
  rewrite !Qred_correct. by rewrite inject_Z_plus.
Qed.

Lemma of_Z_mul x y : of_Z (x * y) = (of_Z x * of_Z y)%Qc.
Proof.
  unfold of_Z. apply Qc_is_canon. cbn [this Q2Qc Qcmult].
  rewrite !Qred_correct. by rewrite inject_Z_mult.
Qed.

Lemma of_Z_sub x y : of_Z (x - y) = (of_Z x - of_Z y)%Qc.
Proof.
  unfold of_Z, Qcminus. apply Qc_is_canon. cbn [this Q2Qc Qcplus Qcopp].
  rewrite !Qred_correct. unfold Z.sub. rewrite inject_Z_plus, inject_Z_opp.
  reflexivity.
Qed.

Lemma of_Z_0 : of_Z 0 = Q2Qc 0.
Proof. reflexivity. Qed.

Lemma of_Z_1 : of_Z 1 = 1%Qc.
Proof. apply Qc_is_canon. reflexivity. Qed.

Lemma of_Z_length_cons {A} (x : A) l :
  of_Z (Z.of_nat (length (x :: l))) = (1 + of_Z (Z.of_nat (length l)))%Qc.
Proof.
  cbn [length]. rewrite Nat2Z.inj_succ, <- Z.add_1_l, of_Z_add, of_Z_1. done.
Qed.

Lemma qsum_of_Z xs : qsum (of_Z <$> xs) = of_Z (sum_z xs).
Proof.
  induction xs as [| x xs IH]; [done |].
  csimpl. unfold qsum, sum_z in *. cbn [foldr]. by rewrite IH, of_Z_add.
Qed.

Lemma qsum_squares xs :
  qsum (zip_with Qcmult (of_Z <$> xs) (of_Z <$> xs)) = of_Z (sum_sq xs).
Proof.
  induction xs as [| x xs IH]; [done |].
  csimpl. unfold qsum, sum_sq in *. cbn [foldr].
  by rewrite IH, of_Z_add, of_Z_mul.
Qed.

Lemma spread_expand x xs :
  spread x xs = sum_sq xs - 2 * x * sum_z xs + Z.of_nat (length xs) * (x * x).
Proof.
  induction xs as [| y xs IH]; [cbn; lia |].
  unfold spread, sum_sq, sum_z in *. cbn [foldr length].
  rewrite IH, Nat2Z.inj_succ. ring.
Qed.

Lemma normal_det_cons x xs : normal_det (x :: xs) = normal_det xs + spread x xs.
Proof.
  rewrite spread_expand. unfold normal_det, sum_sq, sum_z.
  cbn [foldr length]. rewrite Nat2Z.inj_succ. ring.
Qed.

Lemma spread_nonneg x xs : 0 <= spread x xs.
Proof.
  induction xs as [| y xs IH]; [done |].
  unfold spread in *. cbn [foldr].
  pose proof (Z.square_nonneg (y - x)). lia.
Qed.

Lemma spread_zero x xs : spread x xs = 0 -> Forall (fun y => y = x) xs.
Proof.
  induction xs as [| y xs IH]; [by constructor |].
  unfold spread in *. cbn [foldr]. intros H.
  pose proof (spread_nonneg x xs) as Hs. unfold spread in Hs.
  pose proof (Z.square_nonneg (y - x)) as Hsq.
  constructor; [| apply IH; lia].
  assert (H0 : (y - x) * (y - x) = 0) by lia.
  apply Z.mul_eq_0 in H0. lia.
Qed.

Lemma normal_det_nonneg xs : 0 <= normal_det xs.
Proof.
  induction xs as [| x xs IH]; [done |].
  rewrite normal_det_cons. pose proof (spread_nonneg x xs). lia.
Qed.

(** The determinant vanishes only when all abscissae are equal. *)
Lemma normal_det_zero xs x1 x2 :
  normal_det xs = 0 -> x1 ∈ xs -> x2 ∈ xs -> x1 = x2.
Proof.
  induction xs as [| x xs IH]; intros Hd H1 H2; [by inversion H1 |].
  rewrite normal_det_cons in Hd.
  pose proof (spread_nonneg x xs). pose proof (normal_det_nonneg xs).
  assert (Hall : Forall (fun y => y = x) xs) by (apply spread_zero; lia).
  rewrite Forall_forall in Hall.
  assert (Hx : forall z, z ∈ x :: xs -> z = x).
  { intros z Hz. apply elem_of_cons in Hz as [-> | Hz]; [done |].
    by apply Hall, list_elem_of_In. }
  by rewrite (Hx x1 H1), (Hx x2 H2).
Qed.

Lemma qsum_line a b xs :
  qsum ((fun x => poly1d (a, b) x) <$> xs) =
    (a * of_Z (sum_z xs) + b * of_Z (Z.of_nat (length xs)))%Qc.
Proof.
  induction xs as [| x xs IH].
  - change (Q2Qc 0 = (a * of_Z 0 + b * of_Z 0)%Qc). rewrite of_Z_0. ring.
  - rewrite of_Z_length_cons. csimpl. unfold qsum, sum_z in *. cbn [foldr].
    rewrite IH, of_Z_add. unfold poly1d. cbn [fst snd]. ring.
Qed.

Lemma qsum_cross a b xs :
  qsum (zip_with Qcmult (of_Z <$> xs) ((fun x => poly1d (a, b) x) <$> xs)) =
    (a * of_Z (sum_sq xs) + b * of_Z (sum_z xs))%Qc.
Proof.
  induction xs as [| x xs IH].
  - change (Q2Qc 0 = (a * of_Z 0 + b * of_Z 0)%Qc). rewrite of_Z_0. ring.
  - csimpl. unfold qsum, sum_z, sum_sq in *. cbn [foldr].
    rewrite IH, !of_Z_add, of_Z_mul. unfold poly1d. cbn [fst snd]. ring.
Qed.

Lemma polyfit_linear a b xs x1 x2 :
  x1 ∈ xs -> x2 ∈ xs -> x1 <> x2 ->
  polyfit xs ((fun x => poly1d (a, b) x) <$> xs) = Ok (a, b).
Proof.
  intros H1 H2 Hne. unfold polyfit.
  destruct xs as [| x0 xs']; [by inversion H1 |].
  set (xs := x0 :: xs') in *.
  rewrite length_fmap, Nat.eqb_refl. cbn [negb].
  rewrite qsum_of_Z, qsum_squares, qsum_line, qsum_cross.
  set (n := of_Z (Z.of_nat (length xs))).
  set (sx := of_Z (sum_z xs)). set (sxx := of_Z (sum_sq xs)).
  assert (Hdet : (n * sxx - sx * sx)%Qc = of_Z (normal_det xs)).
  { unfold normal_det, n, sx, sxx. by rewrite of_Z_sub, !of_Z_mul. }
  assert (Hnz : (n * sxx - sx * sx)%Qc <> Q2Qc 0).
  { rewrite Hdet, <- of_Z_0. intros H. apply of_Z_inj in H.
    by apply Hne, (normal_det_zero xs). }
  assert (Hn : n <> Q2Qc 0).
  { unfold n. rewrite <- of_Z_0. intros H. apply of_Z_inj in H.
    unfold xs in H. cbn [length] in H. lia. }
  destruct (decide _) as [Hz | _]; [done |].
  f_equal. f_equal; field; done.
Qed.



End LinearData.

(** ** More on calculate_forecast *)

Section ForecastShape.

Lemma is_month_end_of_index i : is_month_end (month_end_of_index i) = true.
Proof. unfold is_month_end, month_end_of_index. cbn [year month day]. apply Z.eqb_refl. Qed.



Lemma polyfit_rejects xs ys :
  xs = [] \/ length xs <> length ys ->
  exists msg, polyfit xs ys = Raise (TypeError msg).
Proof.
  intros H. unfold polyfit. destruct xs as [| x xs]; [by eexists |].
  destruct H as [H | H]; [done |].
  match goal with |- context [(?n =? ?m)%nat] =>
    destruct (Nat.eqb_spec n m) as [Heq | Hneq] end; [done |].
  cbn [negb]. by eexists.
Qed.



End ForecastShape.

(** ** The lines of the groups *)

Section GroupLines.

Lemma group_lines_shape show kg :
  group_ok show kg ->
  exists d p,
    getitem kg.2 "date" = Ok d /\ getitem kg.2 "price" = Ok p /\
    line_label <$> group_lines show kg = group_labels show kg.1 /\
    List.filter is_actual (group_lines show kg) =
      [mkLine d p "-" (ActualOf kg.1) None None].
Proof.
  intros (Hd & Hp & Hf). unfold group_lines, group_labels.
  destruct (getitem kg.2 "date") as [d |] eqn:Ed; [| done].
  destruct (getitem kg.2 "price") as [p |] eqn:Ep; [| done].
  exists d, p. split; [done |]. split; [done |].
  destruct show; [| done].
  specialize (Hf eq_refl). unfold group_forecast, mbind, result_bind in Hf.
  rewrite Ed, Ep in Hf. cbn [rbind] in Hf.
  by destruct (calculate_forecast d p 6).
Qed.

Lemma groups_labels show gs :
  Forall (group_ok show) gs ->
  line_label <$> flat_map (group_lines show) gs =
    flat_map (group_labels show) gs.*1.
Proof.
  induction 1 as [| kg gs Hkg _ IH]; [done |].
  cbn [flat_map fmap list_fmap]. rewrite fmap_app, IH.
  destruct (group_lines_shape show kg Hkg) as (d & p & _ & _ & -> & _).
  done.
Qed.

Lemma filter_actual_app l1 l2 :
  List.filter is_actual (l1 ++ l2) =
    List.filter is_actual l1 ++ List.filter is_actual l2.
Proof. apply List.filter_app. Qed.

Lemma groups_points show gs :
  Forall (group_ok show) gs ->
  points (List.filter is_actual (flat_map (group_lines show) gs)) =
    sum_list_with
      (fun kg => match getitem kg.2 "price" with
                 | Ok p => length p
                 | Raise _ => 0%nat
                 end) gs.
Proof.
  induction 1 as [| kg gs Hkg _ IH]; [done |].
  cbn [flat_map sum_list_with]. rewrite filter_actual_app.
  destruct (group_lines_shape show kg Hkg) as (d & p & _ & -> & _ & ->).
  unfold points in *. cbn [app sum_list_with line_y]. by rewrite IH.
Qed.

Lemma sum_list_with_zero {A} (l : list A) : sum_list_with (fun _ => 0%nat) l = 0%nat.
Proof. induction l as [| x l IH]; [done |]. cbn. exact IH. Qed.

Lemma sum_list_with_add {A} (f g : A -> nat) l :
  sum_list_with (fun x => (f x + g x)%nat) l =
    (sum_list_with f l + sum_list_with g l)%nat.
Proof. induction l as [| x l IH]; [done |]. cbn. rewrite IH. lia. Qed.

Lemma sum_list_with_ext {A} (f g : A -> nat) l :
  (forall x, f x = g x) -> sum_list_with f l = sum_list_with g l.
Proof. intros H. induction l as [| x l IH]; [done |]. cbn. by rewrite H, IH. Qed.

Lemma sum_indicator (k0 : list cell) ks :
  NoDup ks -> k0 ∈ ks ->
  sum_list_with (fun k => if bool_decide (k0 = k) then 1%nat else 0%nat) ks = 1%nat.
Proof.
  induction 1 as [| k ks Hk Hnd IH]; intros Hin; [by inversion Hin |].
  cbn [sum_list_with]. destruct (bool_decide_reflect (k0 = k)) as [<- | Hne].
  - assert (H0 : sum_list_with
                   (fun k => if bool_decide (k0 = k) then 1%nat else 0%nat) ks
                 = 0%nat).
    { clear IH Hnd Hin. induction ks as [| k ks IH]; [done |].
      cbn [sum_list_with]. rewrite bool_decide_eq_false_2.
      - apply IH. intros H. apply Hk. by right.
      - intros ->. apply Hk. by left. }
    by rewrite H0.
  - apply elem_of_cons in Hin as [-> | Hin]; [done |]. by rewrite IH.
Qed.

(** Each row falls in the group of its key, and in no other. *)
Lemma sum_select {A} keys (l : list A) ks :
  length l = length keys -> NoDup ks -> (forall k, k ∈ keys -> k ∈ ks) ->
  sum_list_with (fun k => length (select (key_mask keys k) l)) ks = length keys.
Proof.
  revert l. induction keys as [| k0 keys IH]; intros l Hlen Hnd Hin.
  - cbn. apply sum_list_with_zero.
  - destruct l as [| x l]; [done |].
    rewrite (sum_list_with_ext _
               (fun k => ((if bool_decide (k0 = k) then 1 else 0) +
                          length (select (key_mask keys k) l))%nat)).
    + rewrite sum_list_with_add, sum_indicator, IH; try done.
      * by injection Hlen.
      * intros k Hk. apply Hin. by right.
      * apply Hin. by left.
    + intros k. unfold key_mask. cbn [fmap list_fmap select].
      by destruct (bool_decide (k0 = k)).
Qed.

Lemma sum_list_with_fmap {A B} (f : B -> nat) (g : A -> B) l :
  sum_list_with f (g <$> l) = sum_list_with (fun x => f (g x)) l.
Proof. induction l as [| x l IH]; [done |]. cbn. by rewrite IH. Qed.

Lemma groups_actual show gs :
  Forall (group_ok show) gs ->
  Forall (fun l => exists kg d p,
            kg ∈ gs /\ getitem kg.2 "date" = Ok d /\
            getitem kg.2 "price" = Ok p /\
            l = mkLine d p "-" (ActualOf kg.1) None None)
    (List.filter is_actual (flat_map (group_lines show) gs)).
Proof.
  induction 1 as [| kg gs Hkg _ IH]; [by constructor |].
  cbn [flat_map]. rewrite filter_actual_app.
  destruct (group_lines_shape show kg Hkg) as (d & p & Hd & Hp & _ & ->).
  cbn [app]. constructor.
  - exists kg, d, p. split; [by left | done].
  - eapply Forall_impl; [| exact IH].
    intros l (kg' & d' & p' & Hin & H). exists kg', d', p'.
    split; [by right | done].
Qed.





End GroupLines.

(** ** The title, and a dataset without dates *)

Section TitleAndDates.

Lemma first_cell_first_of df c :
  wf_frame df -> empty df = false ->
  if has_column df c
  then exists x, first_of df c = Some x /\ first_cell df c = Ok x
  else first_of df c = None.
Proof.
  intros Hwf Hne. unfold first_of, first_cell, getitem, mbind at 2, result_bind.
  destruct (has_column df c) eqn:Hc.
  - destruct (has_column_true df c Hc) as [l Hl]. rewrite Hl. cbn [rbind].
    pose proof (Hwf c l Hl) as Hlen. pose proof (nrows_nonzero df Hne) as Hn.
    destruct l as [| x l']; [simpl in Hlen; lia |]. by exists x.
  - by rewrite (has_column_false df c Hc).
Qed.

Lemma main_title_first_row df :
  input_contract df -> main_title df = Ok (first_row_title df).
Proof.
  intros Hcontract. destruct (main_title_ok df Hcontract) as [mt Hmt].
  rewrite Hmt. f_equal.
  destruct Hcontract as (Hwf & Hne & _ & _ & _ & Hcity).
  pose proof (first_cell_first_of df "city" Hwf Hne) as Hc.
  pose proof (first_cell_first_of df "stateabbr" Hwf Hne) as Hs.
  unfold main_title, first_row_title, mbind, result_bind in *.
  destruct (has_column df "city").
  - rewrite (Hcity eq_refl) in Hs.
    destruct Hc as (c & -> & Hc), Hs as (s & -> & Hs).
    rewrite Hc, Hs in Hmt. cbn [rbind] in Hmt.
    destruct (avg_desc df); [| done]. cbn [rbind] in Hmt. by injection Hmt.
  - rewrite Hc. destruct (has_column df "stateabbr").
    + destruct Hs as (s & -> & Hs). rewrite Hs in Hmt. cbn [rbind] in Hmt.
      destruct (avg_desc df); [| done]. cbn [rbind] in Hmt. by injection Hmt.
    + rewrite Hs. destruct (avg_desc df); [| done]. cbn [rbind] in Hmt.
      by injection Hmt.
Qed.



Lemma groups_of_nonempty df :
  location_cols_of df <> [] -> nrows df <> 0%nat -> groups_of df <> [].
Proof.
  intros Hloc Hn Hnil. apply (f_equal length) in Hnil.
  rewrite length_groups_of in Hnil. cbn [length] in Hnil.
  apply length_zero_iff_nil in Hnil.
  apply remove_dups_nonempty in Hnil; [done |].
  intros Hk. apply (f_equal length) in Hk.
  rewrite length_location_keys in Hk by done. done.
Qed.

Lemma plot_series_no_date df w :
  has_column df "date" = false -> nrows df <> 0%nat ->
  plot_series df w = (Raise (KeyError "date"), w).
Proof.
  intros Hd Hn. apply has_column_false in Hd. unfold plot_series.
  destruct (bool_decide (location_cols_of df = [])) eqn:Hloc.
  - unfold plot_whole, mbind, M_bind, lift, getitem. by rewrite Hd.
  - apply bool_decide_eq_false in Hloc.
    pose proof (groupby_ok df) as Hok.
    pose proof (groups_of_nonempty df Hloc Hn) as Hgs.
    unfold groups_of in Hgs.
    destruct (groupby df (location_cols_of df)) as [gs |] eqn:Hg; [| done].
    pose proof (groups_of_eq df) as Heq. unfold groups_of in Heq.
    rewrite Hg in Heq.
    unfold mbind at 1, M_bind at 1, lift.
    destruct gs as [| kg gs]; [done |].
    destruct (group_keys (location_keys df)) as [| k ks]; [done |].
    injection Heq as -> _.
    cbn [foldM]. unfold plot_group, mbind, M_bind, lift. cbn [snd].
    rewrite getitem_sub_frame, Hd. reflexivity.
Qed.

(** X17: A dataset without a date column, otherwise fit to be drawn, makes
    [update_plot] raise KeyError('date') at the first series: by then the
    dataset is stored as [current_data] and its prices are coerced, the
    axes are cleared and hold no line, and the canvas is not flushed. *)
Theorem update_plot_requires_date w r df price' :
  heap w !! r = Some df -> empty df = false ->
  (price ← getitem df "price"; astype_float price) = Ok price' ->
  is_ok (main_title df) = true ->
  has_column df "date" = false ->
  let w' := (update_plot (Some r) w).2 in
  (update_plot (Some r) w).1 = Raise (KeyError "date") /\
  ax (self w') = blank_axes /\
  canvas (self w') = canvas (self w) /\
  current_data (self w') = Some r /\
  heap w' = <[r := setitem df "price" price']> (heap w).
Proof.
  intros Hdf Hne Hc Hmt Hd. cbv zeta.
  assert (Hup : update_plot (Some r) w =
            (Raise (KeyError "date"),
             mkWorld (<[r := setitem df "price" price']> (heap w))
               (set_ax blank_axes (set_current_data r (self w))))).
  { rewrite (update_plot_coerce_ok w r df price' Hdf Hne Hc).
    unfold mbind at 1, M_bind at 1, draw, mbind at 1, M_bind at 1, lift.
    rewrite main_title_setitem.
    destruct (main_title df) as [mt |]; [| done].
    unfold mbind at 1, M_bind at 1.
    rewrite plot_series_no_date; [done | |].
    - by rewrite has_column_setitem_ne.
    - cbn [setitem nrows]. by apply nrows_nonzero. }
  rewrite Hup. by repeat split.
Qed.

Lemma update_plot_requires_date_witness :
  (update_plot (Some 0%nat)
     (fresh (<[0%nat := mkFrame 1 (<["price" := [Str "12"]]>
                                   (<["included_zipcodes" := [Num (of_Z 3)]]> ∅))]>
              ∅))).1 = Raise (KeyError "date").
Proof.
  apply (update_plot_requires_date _ 0%nat
           (mkFrame 1 (<["price" := [Str "12"]]>
                       (<["included_zipcodes" := [Num (of_Z 3)]]> ∅)))
           [Num (of_Z 12)]).
  - reflexivity.
  - reflexivity.
  - vm_compute. reflexivity.
  - vm_compute. reflexivity.
  - vm_compute. reflexivity.
Defined.

End TitleAndDates.

(** ** The columns the picture depends on *)

Ltac series_column :=
  unfold series_columns; apply list_elem_of_In; cbn [In]; tauto.

Section OtherColumns.

Context (df1 df2 : DataFrame) (Hagree : agree_on_series df1 df2).

Lemma agree_column c : c ∈ series_columns -> columns df1 !! c = columns df2 !! c.
Proof. apply Hagree. Qed.

Lemma agree_getitem c : c ∈ series_columns -> getitem df1 c = getitem df2 c.
Proof. intros Hc. unfold getitem. by rewrite (agree_column c Hc). Qed.

Lemma agree_has_column c :
  c ∈ series_columns -> has_column df1 c = has_column df2 c.
Proof. intros Hc. unfold has_column. by rewrite (agree_column c Hc). Qed.

Lemma agree_location_cols : location_cols_of df1 = location_cols_of df2.
Proof.
  unfold location_cols_of.
  rewrite (agree_has_column "stateabbr"), (agree_has_column "city"),
    (agree_has_column "zipcode"); [done | | |];
    series_column.
Qed.

Lemma agree_location_keys : location_keys df1 = location_keys df2.
Proof.
  unfold location_keys. rewrite agree_location_cols.
  destruct Hagree as [-> _].
  assert (E1 := agree_getitem "stateabbr" ltac:(series_column)).
  assert (E2 := agree_getitem "city" ltac:(series_column)).
  assert (E3 := agree_getitem "zipcode" ltac:(series_column)).
  unfold location_cols_of.
  destruct (has_column df2 "stateabbr"); [| done].
  destruct (has_column df2 "city"); [destruct (has_column df2 "zipcode") |];
    cbn [rmapM]; by rewrite ?E1, ?E2, ?E3.
Qed.

Lemma agree_sub_getitem mask c :
  c ∈ series_columns ->
  getitem (sub_frame df1 mask) c = getitem (sub_frame df2 mask) c.
Proof. intros Hc. by rewrite !getitem_sub_frame, (agree_column c Hc). Qed.

Lemma agree_group_lines show k mask :
  group_lines show (k, sub_frame df1 mask) = group_lines show (k, sub_frame df2 mask).
Proof.
  unfold group_lines. cbn [fst snd].
  by rewrite (agree_sub_getitem mask "date"), (agree_sub_getitem mask "price")
    by (series_column).
Qed.

Lemma agree_group_values mask :
  group_values (sub_frame df1 mask) = group_values (sub_frame df2 mask).
Proof.
  unfold group_values, group_forecast.
  by rewrite (agree_sub_getitem mask "date"), (agree_sub_getitem mask "price")
    by (series_column).
Qed.

Lemma agree_series_lines show acc :
  series_lines show acc df1 = series_lines show acc df2.
Proof.
  unfold series_lines. rewrite agree_location_cols.
  destruct (bool_decide (location_cols_of df2 = [])).
  - unfold whole_lines.
    by rewrite (agree_getitem "date"), (agree_getitem "price")
      by (series_column).
  - rewrite !groups_of_eq, agree_location_keys.
    induction (group_keys (location_keys df2)) as [| k ks IH]; [done |].
    cbn [fmap list_fmap flat_map]. by rewrite agree_group_lines, IH.
Qed.

Lemma agree_series_forecast show :
  series_forecast show df1 = series_forecast show df2.
Proof.
  unfold series_forecast. rewrite agree_location_cols.
  destruct (bool_decide (location_cols_of df2 = [])).
  - unfold group_values, group_forecast.
    by rewrite (agree_getitem "date"), (agree_getitem "price")
      by (series_column).
  - unfold last_forecast. destruct show; [| done].
    rewrite !groups_of_eq, agree_location_keys, !fmap_last.
    destruct (list.last (group_keys (location_keys df2))) as [k |]; [| done].
    cbn [fmap option_fmap option_map snd]. apply agree_group_values.
Qed.

Lemma agree_has_multiple : has_multiple df1 = has_multiple df2.
Proof.
  unfold has_multiple.
  by rewrite agree_location_cols, !length_groups_of, agree_location_keys.
Qed.

Lemma agree_drawn_axes show acc mt qs :
  drawn_axes show acc df1 mt qs = drawn_axes show acc df2 mt qs.
Proof.
  unfold drawn_axes, drawn_title.
  by rewrite agree_series_lines, agree_series_forecast, agree_has_multiple.
Qed.

End OtherColumns.

Section Ignored.

Lemma agree_setitem df c l :
  c ∉ series_columns -> agree_on_series (setitem df c l) df.
Proof.
  intros Hc. split; [done |]. intros c' Hc'. unfold setitem. cbn [columns].
  apply lookup_insert_ne. by intros ->.
Qed.

Lemma agree_setitem_price df1 df2 l :
  agree_on_series df1 df2 ->
  agree_on_series (setitem df1 "price" l) (setitem df2 "price" l).
Proof.
  intros [Hn Hcols]. split; [done |]. intros c Hc. unfold setitem. cbn [columns].
  destruct (decide (c = "price")) as [-> | Hne].
  - by rewrite !lookup_insert_eq.
  - rewrite !lookup_insert_ne by done. by apply Hcols.
Qed.

Lemma agree_first_row_title df1 df2 :
  agree_on_series df1 df2 -> first_row_title df1 = first_row_title df2.
Proof.
  intros [_ Hcols]. unfold first_row_title, first_of.
  by rewrite (Hcols "city"), (Hcols "stateabbr")
    by (series_column).
Qed.


Lemma frame_states_recounted :
  input_contract
    (setitem frame_states "included_zipcodes"
       [Num (of_Z 7); Num (of_Z 8); Num (of_Z 9)]).
Proof.
  split; [apply wf_frameb_correct; vm_compute; reflexivity |].
  split; [reflexivity |]. split; [vm_compute; reflexivity |].
  split; [vm_compute; reflexivity |]. split.
  - exists [Num (of_Z 7); Num (of_Z 8); Num (of_Z 9)].
    split; [reflexivity | by intros s].
  - intros H. vm_compute in H. discriminate H.
Qed.


End Ignored.

(** ** The dressing of the axes *)

Section Dressing.



End Dressing.

(** ** Amounts as they are printed *)

Section Amounts.

Lemma nat_of_digit_char n :
  0 <= n <= 9 -> nat_of_ascii (digit_char n) = Z.to_nat (48 + n).
Proof. intros H. unfold digit_char. apply nat_ascii_embedding. lia. Qed.

Lemma digit_of_char n : 0 <= n <= 9 -> digit_of (digit_char n) = Some n.
Proof.
  intros H. unfold digit_of. cbv zeta. rewrite (nat_of_digit_char n H).
  rewrite Z2Nat.id by lia.
  destruct (Z.leb_spec 48 (48 + n)); [| lia].
  destruct (Z.leb_spec (48 + n) 57); [| lia].
  cbn [andb]. f_equal; lia.
Qed.

Lemma digit_char_neq n c :
  0 <= n <= 9 -> (nat_of_ascii c < 48)%nat -> Ascii.eqb (digit_char n) c = false.
Proof.
  intros H Hc. apply Ascii.eqb_neq. intros Heq.
  apply (f_equal nat_of_ascii) in Heq. rewrite (nat_of_digit_char n H) in Heq. lia.
Qed.

Lemma digit_char_not_comma n : 0 <= n <= 9 -> Ascii.eqb (digit_char n) ","%char = false.
Proof.
  intros H. apply digit_char_neq; [done |].
  apply Nat.ltb_lt. vm_compute. reflexivity.
Qed.

Lemma digit_char_not_minus n s : 0 <= n <= 9 ->
  read_amount (String (digit_char n) s) = read_grouped (String (digit_char n) s) 0.
Proof.
  intros H. unfold read_amount. rewrite digit_char_neq; [done | done |].
  apply Nat.ltb_lt. vm_compute. reflexivity.
Qed.

Lemma read_digit n s acc :
  0 <= n <= 9 ->
  read_grouped (String (digit_char n) s) acc = read_grouped s (10 * acc + n).
Proof.
  intros H. cbn [read_grouped].
  by rewrite (digit_char_not_comma n H), (digit_of_char n H).
Qed.

Lemma read_grouped_app s1 s2 acc :
  read_grouped (s1 +:+ s2) acc = read_grouped s1 acc ≫= read_grouped s2.
Proof.
  revert acc. induction s1 as [| c s1 IH]; intros acc; [done |].
  change (String c s1 +:+ s2) with (String c (s1 +:+ s2)).
  cbn [read_grouped].
  destruct (Ascii.eqb c ","%char); [apply IH |].
  destruct (digit_of c); [apply IH | done].
Qed.

Lemma read_three_digits m acc :
  0 <= m < 1000 -> read_grouped (three_digits m) acc = Some (1000 * acc + m).
Proof.
  intros H. unfold three_digits.
  rewrite !read_digit by (Z.div_mod_to_equations; lia).
  cbn [read_grouped]. f_equal; Z.div_mod_to_equations; lia.
Qed.

Lemma read_short_digits m :
  0 <= m < 1000 -> read_grouped (short_digits m) 0 = Some m.
Proof.
  intros H. unfold short_digits.
  destruct (Z.ltb_spec m 10); [| destruct (Z.ltb_spec m 100)].
  - rewrite read_digit by lia. cbn [read_grouped]. f_equal; lia.
  - rewrite !read_digit by (Z.div_mod_to_equations; lia).
    cbn [read_grouped]. f_equal; Z.div_mod_to_equations; lia.
  - rewrite read_three_digits by done. f_equal; lia.
Qed.

Lemma read_grouped_digits fuel :
  forall n, 0 <= n < 1000 * 2 ^ Z.of_nat fuel ->
            read_grouped (grouped fuel n) 0 = Some n.
Proof.
  induction fuel as [| fuel IH]; intros n Hn.
  - cbn [grouped]. apply read_short_digits. cbn in Hn. lia.
  - cbn [grouped]. destruct (Z.ltb_spec n 1000).
    + apply read_short_digits. lia.
    + rewrite Nat2Z.inj_succ, Z.pow_succ_r in Hn by lia.
      assert (Hpow : 0 < 2 ^ Z.of_nat fuel) by (apply Z.pow_pos_nonneg; lia).
      rewrite !read_grouped_app, IH by (Z.div_mod_to_equations; nia).
      cbn [mbind option_bind].
      change ("," +:+ three_digits (n mod 1000))
        with (String ","%char (three_digits (n mod 1000))).
      cbn [read_grouped Ascii.eqb Bool.eqb].
      rewrite read_three_digits by (Z.div_mod_to_equations; lia).
      f_equal; Z.div_mod_to_equations; lia.
Qed.

Lemma short_digits_head n :
  0 <= n < 1000 ->
  exists d s, 0 <= d <= 9 /\ short_digits n = String (digit_char d) s.
Proof.
  intros Hn. unfold short_digits, three_digits.
  destruct (Z.ltb_spec n 10); [| destruct (Z.ltb_spec n 100)].
  - exists n, "". split; [lia | done].
  - eexists (n / 10), _. split; [Z.div_mod_to_equations; lia | done].
  - eexists (n / 100), _. split; [Z.div_mod_to_equations; lia | done].
Qed.

Lemma grouped_head fuel :
  forall n, 0 <= n < 1000 * 2 ^ Z.of_nat fuel ->
            exists d s, 0 <= d <= 9 /\ grouped fuel n = String (digit_char d) s.
Proof.
  induction fuel as [| fuel IH]; intros n Hn.
  - apply short_digits_head. cbn in Hn. lia.
  - cbn [grouped]. destruct (Z.ltb_spec n 1000); [apply short_digits_head; lia |].
    rewrite Nat2Z.inj_succ, Z.pow_succ_r in Hn by lia.
    assert (Hpow : 0 < 2 ^ Z.of_nat fuel) by (apply Z.pow_pos_nonneg; lia).
    destruct (IH (n / 1000) ltac:(Z.div_mod_to_equations; nia))
      as (d & s & Hd & ->).
    eexists d, _. split; [done |]. reflexivity.
Qed.

Lemma fuel_enough n :
  0 <= n -> n < 1000 * 2 ^ Z.of_nat (Z.to_nat (Z.log2 n)).
Proof.
  intros Hn. rewrite Z2Nat.id by apply Z.log2_nonneg.
  destruct (Z.eq_dec n 0) as [-> | Hne]; [done |].
  pose proof (Z.log2_spec n ltac:(lia)) as [_ Hlt].
  rewrite Z.pow_succ_r in Hlt by apply Z.log2_nonneg.
  assert (0 < 2 ^ Z.log2 n) by (apply Z.pow_pos_nonneg; [lia | apply Z.log2_nonneg]).
  lia.
Qed.

Lemma round_half_even_sign (q : Qc) :
  ((Qnum q <? 0) = true -> round_half_even q <= 0) /\
  ((Qnum q <? 0) = false -> 0 <= round_half_even q).
Proof.
  unfold round_half_even. cbv zeta.
  set (n := Qnum q). set (d := Z.pos (Qden q)).
  assert (Hd : 0 < d) by done.
  destruct (Z.ltb_spec n 0) as [Hneg | Hpos]; split; intros Hb;
    try discriminate Hb;
    repeat match goal with
           | |- context [if ?b then _ else _] => destruct b
           end;
    Z.div_mod_to_equations; nia.
Qed.

Lemma read_format_comma_0f (q : Qc) :
  read_amount (format_comma_0f q) = Some (round_half_even q).
Proof.
  unfold format_comma_0f. cbv zeta.
  destruct (round_half_even_sign q) as [Hneg Hpos].
  set (z := round_half_even q) in *.
  pose proof (fuel_enough (Z.abs z) (Z.abs_nonneg z)) as Hfuel.
  set (g := grouped (Z.to_nat (Z.log2 (Z.abs z))) (Z.abs z)).
  destruct (Qnum q <? 0).
  - change ("-" +:+ g) with (String "-"%char g).
    cbn [read_amount Ascii.eqb Bool.eqb]. unfold g.
    rewrite read_grouped_digits by (split; [apply Z.abs_nonneg | done]).
    cbn [fmap option_fmap option_map]. specialize (Hneg eq_refl). f_equal; lia.
  - change ("" +:+ g) with g. unfold g.
    destruct (grouped_head _ (Z.abs z) ltac:(split; [apply Z.abs_nonneg | done]))
      as (d & s & Hd & Hs).
    rewrite Hs, digit_char_not_minus, <- Hs by done.
    rewrite read_grouped_digits by (split; [apply Z.abs_nonneg | done]).
    specialize (Hpos eq_refl). f_equal; lia.
Qed.

Lemma round_half_even_near (q : Qc) :
  (inject_Z (round_half_even q) - (1 # 2) <= q)%Q /\
  (q <= inject_Z (round_half_even q) + (1 # 2))%Q.
Proof.
  unfold round_half_even. cbv zeta.
  destruct q as [[n d] Hcanon]. cbn [this Qnum Qden].
  assert (Hd : 0 < Z.pos d) by done.
  unfold Qle, Qminus, Qplus, Qopp, inject_Z. cbn [Qnum Qden].
  repeat match goal with
         | |- context [if ?b then _ else _] =>
             let H := fresh in destruct b eqn:H
         end;
    rewrite ?Z.ltb_lt, ?Z.ltb_ge in *;
    split; Z.div_mod_to_equations; nia.
Qed.

(** X20: What the tick formatter prints can be read back: after the dollar
    sign come the digits, in groups of three, of the integer nearest to the
    amount (ties to the even one), which is no further than one half from
    it; the tick position has no part in it. *)
Theorem currency_formatter_reads_back (x : Qc) (p : Z) :
  read_currency (currency_formatter x p) = Some (round_half_even x) /\
  (inject_Z (round_half_even x) - (1 # 2) <= x)%Q /\
  (x <= inject_Z (round_half_even x) + (1 # 2))%Q /\
  currency_formatter x p = currency_formatter x 0.
Proof.
  split; [| split; [apply round_half_even_near |
                    split; [apply round_half_even_near | reflexivity]]].
  unfold currency_formatter.
  change ("$" +:+ format_comma_0f x) with (String "$"%char (format_comma_0f x)).
  cbn [read_currency Ascii.eqb Bool.eqb]. apply read_format_comma_0f.
Qed.

Example currency_formatter_samples :
  currency_formatter (Q2Qc (2469135 # 2)) 0 = "$1,234,568" /\
  currency_formatter (Q2Qc (1999 # 2)) 0 = "$1,000" /\
  currency_formatter (Q2Qc (5 # 2)) 0 = "$2" /\
  currency_formatter (Q2Qc (-1 # 4)) 0 = "$-0" /\
  currency_formatter (of_Z 1005) 0 = "$1,005".
Proof. repeat split; vm_compute; reflexivity. Qed.

End Amounts.
